(** * secret-click-craft: LSB steganography codec and click-sequence matcher

    A shallow embedding of [src/utils/steganography.ts] and of the
    verification logic of [ImageCanvas] and [DecodeMode]
    ([src/components/EncodeMode.tsx]), followed by the properties of the
    specification that were checked against it.

    Conventions of the embedding:
    - a JavaScript string is the list of its UTF-16 code units ([N], each
      below 65536);
    - a binary string (a JavaScript string over the characters 0 and 1) is
      a list of bits, [true] standing for the character 1;
    - [ImageData.data] (a [Uint8ClampedArray]) is a [list N] indexed from 0,
      four entries (R, G, B, A) per pixel in row-major order;
    - a thrown exception is an explicit [Throw] result. *)

From Stdlib Require Import NArith List String Ascii Reals Lra Lia.
From stdpp Require Import base list.

Local Open Scope N_scope.

(** ** JavaScript strings *)

Definition JSString := list N.

(** The code units of an ASCII / Latin-1 literal. *)
Definition js (s : string) : JSString :=
  List.map N_of_ascii (list_ascii_of_string s).

(** [s.startsWith(p)] together with the remainder of [s]. *)
Fixpoint strip_prefix (p s : JSString) : option JSString :=
  match p, s with
  | [], _ => Some s
  | _ :: _, [] => None
  | a :: p', b :: s' => if a =? b then strip_prefix p' s' else None
  end.

(** ** The platform's JSON object

    [JSON.stringify] and [JSON.parse] are not code of the repository; they
    are modelled after ECMA-262 (sections 25.5.1 and 25.5.2) and ECMA-404.
    A finite number is represented by the decimal literal that
    [Number::toString] prints for it: distinct finite doubles print
    differently and [JSON.parse] reads every such literal back to the double
    it was printed from, so the codec, which only prints and reads numbers,
    cannot tell the difference. *)
Module Json.

Definition number := JSString.

#[local] Unset Elimination Schemes.
Inductive JSValue :=
| JNull
| JBool (b : bool)
| JNumber (n : number)
| JString (s : JSString)
| JArray (elements : list JSValue)
| JObject (properties : list (JSString * JSValue)).
#[local] Set Elimination Schemes.

(** Outcome of an operation that may throw. *)
Inductive completion (A : Type) :=
| Normal (a : A)
| Throw (error : string).
Arguments Normal {A} a.
Arguments Throw {A} error.

(** *** JSON.stringify *)

Definition hex_digit (d : N) : N := if d <? 10 then 48 + d else 87 + d.

(** [UnicodeEscape]: backslash, u and four lower-case hexadecimal digits. *)
Definition unicode_escape (c : N) : JSString :=
  [92; 117; hex_digit (c / 4096 mod 16); hex_digit (c / 256 mod 16);
   hex_digit (c / 16 mod 16); hex_digit (c mod 16)].

Definition is_high_surrogate (c : N) : bool := (55296 <=? c) && (c <=? 56319).
Definition is_low_surrogate (c : N) : bool := (56320 <=? c) && (c <=? 57343).

(** One code unit that is not part of a surrogate pair. *)
Definition quote_unit (c : N) : JSString :=
  if c =? 8 then [92; 98]
  else if c =? 9 then [92; 116]
  else if c =? 10 then [92; 110]
  else if c =? 12 then [92; 102]
  else if c =? 13 then [92; 114]
  else if c =? 34 then [92; 34]
  else if c =? 92 then [92; 92]
  else if c <? 32 then unicode_escape c
  else [c].

Fixpoint quote_units (s : JSString) : JSString :=
  match s with
  | [] => []
  | c :: r =>
      if is_high_surrogate c then
        match r with
        | d :: r' =>
            if is_low_surrogate d then c :: d :: quote_units r'
            else unicode_escape c ++ quote_units r
        | [] => unicode_escape c
        end
      else if is_low_surrogate c then unicode_escape c ++ quote_units r
      else quote_unit c ++ quote_units r
  end.

(** [QuoteJSONString]. *)
Definition quote (s : JSString) : JSString := 34 :: quote_units s ++ [34].

Fixpoint join_comma (parts : list JSString) : JSString :=
  match parts with
  | [] => []
  | [p] => p
  | p :: rest => p ++ 44 :: join_comma rest
  end.

(** [JSON.stringify(value)] without replacer or indentation. *)
Fixpoint stringify (v : JSValue) : JSString :=
  match v with
  | JNull => js "null"
  | JBool true => js "true"
  | JBool false => js "false"
  | JNumber n => n
  | JString s => quote s
  | JArray elements => 91 :: join_comma (List.map stringify elements) ++ [93]
  | JObject properties =>
      123 :: join_comma
               (List.map (fun kv => quote (fst kv) ++ 58 :: stringify (snd kv))
                  properties) ++ [125]
  end.

(** *** JSON.parse *)

Definition is_ws (c : N) : bool :=
  (c =? 32) || (c =? 9) || (c =? 10) || (c =? 13).

Fixpoint skip_ws (s : JSString) : JSString :=
  match s with
  | [] => []
  | c :: r => if is_ws c then skip_ws r else s
  end.

Definition hex_value (c : N) : option N :=
  if (48 <=? c) && (c <=? 57) then Some (c - 48)
  else if (97 <=? c) && (c <=? 102) then Some (c - 87)
  else if (65 <=? c) && (c <=? 70) then Some (c - 55)
  else None.

Definition hex4 (h1 h2 h3 h4 : N) : option N :=
  match hex_value h1, hex_value h2, hex_value h3, hex_value h4 with
  | Some a, Some b, Some c, Some d => Some (((a * 16 + b) * 16 + c) * 16 + d)
  | _, _, _, _ => None
  end.

(** The character an escape letter stands for. *)
Definition simple_escape (e : N) : option N :=
  if e =? 34 then Some 34
  else if e =? 92 then Some 92
  else if e =? 47 then Some 47
  else if e =? 98 then Some 8
  else if e =? 102 then Some 12
  else if e =? 110 then Some 10
  else if e =? 114 then Some 13
  else if e =? 116 then Some 9
  else None.

Definition cons_unit (c : N) (o : option (JSString * JSString)) :
  option (JSString * JSString) :=
  match o with
  | Some (str, rest) => Some (c :: str, rest)
  | None => None
  end.

(** The characters of a string literal, after its opening quote, up to and
    including the closing quote. *)
Fixpoint parse_chars (s : JSString) : option (JSString * JSString) :=
  match s with
  | [] => None
  | c :: r =>
      if c =? 34 then Some ([], r)
      else if c =? 92 then
        match r with
        | [] => None
        | e :: r1 =>
            if e =? 117 then
              match r1 with
              | h1 :: h2 :: h3 :: h4 :: r2 =>
                  match hex4 h1 h2 h3 h4 with
                  | Some u => cons_unit u (parse_chars r2)
                  | None => None
                  end
              | _ => None
              end
            else
              match simple_escape e with
              | Some u => cons_unit u (parse_chars r1)
              | None => None
              end
        end
      else if c <? 32 then None
      else cons_unit c (parse_chars r)
  end.

Definition is_digit (c : N) : bool := (48 <=? c) && (c <=? 57).

Definition is_number_char (c : N) : bool :=
  is_digit c || (c =? 45) || (c =? 43) || (c =? 46) || (c =? 101) || (c =? 69).

Fixpoint skip_digits (s : JSString) : JSString :=
  match s with
  | [] => []
  | c :: r => if is_digit c then skip_digits r else s
  end.

(** One or more digits and nothing else. *)
Definition digits1 (s : JSString) : bool :=
  match s with
  | [] => false
  | c :: r => is_digit c && match skip_digits r with [] => true | _ => false end
  end.

(** The exponent part of a number, or nothing. *)
Definition valid_exp (s : JSString) : bool :=
  match s with
  | [] => true
  | e :: r =>
      ((e =? 101) || (e =? 69)) &&
      match r with
      | sign :: r' =>
          if (sign =? 43) || (sign =? 45) then digits1 r' else digits1 r
      | [] => false
      end
  end.

(** The fraction part of a number, or nothing, then the exponent. *)
Definition valid_frac (s : JSString) : bool :=
  match s with
  | c :: r =>
      if c =? 46 then
        match r with
        | d :: r' => is_digit d && valid_exp (skip_digits r')
        | [] => false
        end
      else valid_exp s
  | [] => true
  end.

(** The JSON number grammar:
    an optional minus, 0 or a digit string without leading 0, an optional
    fraction, an optional exponent. *)
Definition valid_number (tok : JSString) : bool :=
  let unsigned := match strip_prefix [45] tok with Some r => r | None => tok end in
  match unsigned with
  | [] => false
  | c :: r =>
      if c =? 48 then valid_frac r
      else is_digit c && valid_frac (skip_digits r)
  end.

(** The longest run of characters that can occur in a number. *)
Fixpoint span_number (s : JSString) : JSString * JSString :=
  match s with
  | [] => ([], [])
  | c :: r =>
      if is_number_char c then
        let '(tok, rest) := span_number r in (c :: tok, rest)
      else ([], s)
  end.

Definition parse_number (s : JSString) : option (JSValue * JSString) :=
  let '(tok, rest) := span_number s in
  if valid_number tok then Some (JNumber tok, rest) else None.

Definition parse_literal (s : JSString) : option (JSValue * JSString) :=
  match strip_prefix (js "true") s with
  | Some r => Some (JBool true, r)
  | None =>
      match strip_prefix (js "false") s with
      | Some r => Some (JBool false, r)
      | None =>
          match strip_prefix (js "null") s with
          | Some r => Some (JNull, r)
          | None => parse_number s
          end
      end
  end.

Definition with_value {A B C : Type} (f : A -> B) (o : option (A * C)) :
  option (B * C) :=
  match o with
  | Some (a, rest) => Some (f a, rest)
  | None => None
  end.

(** Recursive descent; every call uses up one unit of [fuel]. *)
Fixpoint parse_value (fuel : nat) (s : JSString) {struct fuel} :
  option (JSValue * JSString) :=
  match fuel with
  | O => None
  | S fuel =>
      match skip_ws s with
      | [] => None
      | c :: r =>
          if c =? 123 then
            match skip_ws r with
            | [] => None
            | c' :: r' =>
                if c' =? 125 then Some (JObject [], r')
                else with_value JObject (parse_members fuel (c' :: r'))
            end
          else if c =? 91 then
            match skip_ws r with
            | [] => None
            | c' :: r' =>
                if c' =? 93 then Some (JArray [], r')
                else with_value JArray (parse_elements fuel (c' :: r'))
            end
          else if c =? 34 then with_value JString (parse_chars r)
          else parse_literal (c :: r)
      end
  end

with parse_elements (fuel : nat) (s : JSString) {struct fuel} :
  option (list JSValue * JSString) :=
  match fuel with
  | O => None
  | S fuel =>
      match parse_value fuel s with
      | None => None
      | Some (v, r) =>
          match skip_ws r with
          | [] => None
          | c :: r' =>
              if c =? 44 then with_value (cons v) (parse_elements fuel r')
              else if c =? 93 then Some ([v], r')
              else None
          end
      end
  end

with parse_members (fuel : nat) (s : JSString) {struct fuel} :
  option (list (JSString * JSValue) * JSString) :=
  match fuel with
  | O => None
  | S fuel =>
      match skip_ws s with
      | [] => None
      | q :: r =>
          if q =? 34 then
            match parse_chars r with
            | None => None
            | Some (k, r1) =>
                match skip_ws r1 with
                | [] => None
                | colon :: r2 =>
                    if colon =? 58 then
                      match parse_value fuel r2 with
                      | None => None
                      | Some (v, r3) =>
                          match skip_ws r3 with
                          | [] => None
                          | c :: r4 =>
                              if c =? 44 then
                                with_value (cons (k, v)) (parse_members fuel r4)
                              else if c =? 125 then Some ([(k, v)], r4)
                              else None
                          end
                      end
                    else None
                end
            end
          else None
      end
  end.

(** [JSON.parse(text)]: one value, surrounded by optional white space; a
    [SyntaxError] otherwise.  No production needs more calls than the
    text has characters, so the fuel never runs out on a valid text. *)
Definition parse (text : JSString) : completion JSValue :=
  match parse_value (S (length text)) text with
  | Some (v, rest) =>
      match skip_ws rest with
      | [] => Normal v
      | _ :: _ => Throw "SyntaxError"
      end
  | None => Throw "SyntaxError"
  end.

(** [value[key]] for a parsed value: the last property of that name of an
    object, [undefined] ([None]) for anything else. *)
Fixpoint lookup_property (key : JSString) (properties : list (JSString * JSValue)) :
  option JSValue :=
  match properties with
  | [] => None
  | (k, v) :: rest =>
      match lookup_property key rest with
      | Some v' => Some v'
      | None => if bool_decide (k = key) then Some v else None
      end
  end.

Definition get (v : JSValue) (key : JSString) : option JSValue :=
  match v with
  | JObject properties => lookup_property key properties
  | _ => None
  end.

(** Whether a number literal denotes zero: no digit of its mantissa
    differs from 0. *)
Fixpoint is_zero_literal (n : number) : bool :=
  match n with
  | [] => true
  | c :: r =>
      if (c =? 101) || (c =? 69) then true
      else negb (is_digit c && negb (c =? 48)) && is_zero_literal r
  end.

(** ToBoolean. *)
Definition truthy (v : JSValue) : bool :=
  match v with
  | JNull => false
  | JBool b => b
  | JNumber n => negb (is_zero_literal n)
  | JString s => negb (bool_decide (s = []))
  | JArray _ | JObject _ => true
  end.

End Json.

(** ** src/utils/steganography.ts *)
Module Steganography.
Import Json.

(** [interface ClickPoint].  The carrier of [number] is a parameter: the
    codec prints and reads numbers ([Json.number]), the matcher calculates
    with them (exact reals). *)
Record ClickPoint {number : Type} := {
  x : number;
  y : number;
  order : number
}.
Arguments ClickPoint number : clear implicits.

(** [interface SteganographyData]. *)
Record SteganographyData := {
  message : JSString;
  clickSequence : list (ClickPoint Json.number)
}.

(** The object that [JSON.stringify] is given: the properties in the order
    in which the object literals of the callers create them. *)
Definition point_value (p : ClickPoint Json.number) : JSValue :=
  JObject [(js "x", JNumber (x p)); (js "y", JNumber (y p));
           (js "order", JNumber (order p))].

Definition data_value (data : SteganographyData) : JSValue :=
  JObject [(js "message", JString (message data));
           (js "clickSequence", JArray (List.map point_value (clickSequence data)))].

(** [n.toString(2)] for a non-negative integer. *)
Fixpoint pos_toString2 (p : positive) (acc : list bool) : list bool :=
  match p with
  | xH => true :: acc
  | xO q => pos_toString2 q (false :: acc)
  | xI q => pos_toString2 q (true :: acc)
  end.

Definition toString2 (n : N) : list bool :=
  match n with
  | N0 => [false]
  | Npos p => pos_toString2 p []
  end.

(** [s.padStart(targetLength, '0')]. *)
Definition padStart (targetLength : nat) (s : list bool) : list bool :=
  replicate (targetLength - length s) false ++ s.

(** [parseInt(s, 2)] for a non-empty binary string. *)
Definition parseInt2 (s : list bool) : N :=
  fold_left (fun acc b => 2 * acc + N.b2n b) s 0.

Definition stringToBinary (str : JSString) : list bool :=
  concat (List.map (fun char => padStart 8 (toString2 char)) str).

(** All matches of [/.{8}/g], from left to right. *)
Fixpoint match_all_8 (binary : list bool) : list (list bool) :=
  match binary with
  | b0 :: b1 :: b2 :: b3 :: b4 :: b5 :: b6 :: b7 :: rest =>
      [b0; b1; b2; b3; b4; b5; b6; b7] :: match_all_8 rest
  | _ => []
  end.

(** [binary.match(/.{8}/g)]: [null] when nothing matches. *)
Definition match_8 (binary : list bool) : option (list (list bool)) :=
  match match_all_8 binary with
  | [] => None
  | chars => Some chars
  end.

Definition binaryToString (binary : list bool) : JSString :=
  match match_8 binary with
  | None => []
  | Some chars => List.map (fun byte => parseInt2 byte) chars
  end.

(** ['1111111111111110']. *)
Definition delimiter : list bool := replicate 15 true ++ [false].

(** A canvas element, as far as the codec uses it: whether
    [getContext('2d')] yields a context, the bytes that [getImageData]
    returns for the whole canvas and [putImageData] replaces, and whether
    [toBlob] delivers a blob. *)
Record HTMLCanvasElement := {
  context2d : bool;
  imageData : list N;
  blobAvailable : bool
}.

Definition putImageData (canvas : HTMLCanvasElement) (pixels : list N) :
  HTMLCanvasElement :=
  {| context2d := context2d canvas;
     imageData := pixels;
     blobAvailable := blobAvailable canvas |}.

(** A PNG blob, identified with the pixel bytes it stores losslessly. *)
Definition Blob := list N.

(** How the promise returned by [encodeMessage] settles. *)
Inductive settled :=
| Resolved (blob : Blob)
| Rejected (error : string).

(** [pixels[i]] read as an operand of a bitwise operator: an index out of
    range reads [undefined], which converts to 0. *)
Definition read (pixels : list N) (i : nat) : N := default 0 (pixels !! i).

(** The embedding loop, [for (let i = 0; i < fullBinary.length; i++)],
    entered at index [i] with the bits from [i] on still to write.
    A store outside a typed array is ignored, as is [<[_:=_]>]. *)
Fixpoint encode_loop (bits : list bool) (i : nat) (pixels : list N) : list N :=
  match bits with
  | [] => pixels
  | b :: rest =>
      let pixelIndex := (i * 4)%nat in
      let bit := N.b2n b in
      encode_loop rest (S i)
        (<[pixelIndex := N.lor (N.land (read pixels pixelIndex) 254) bit]> pixels)
  end.

(** [encodeMessage]: the canvas after the call and the outcome of the
    promise.  [fullBinary.length > pixels.length / 4] is compared after
    multiplying both sides by 4. *)
Definition encodeMessage (canvas : HTMLCanvasElement) (data : SteganographyData) :
  HTMLCanvasElement * settled :=
  if negb (context2d canvas) then (canvas, Rejected "Could not get canvas context")
  else
    let pixels := imageData canvas in
    let serializedData := stringify (data_value data) in
    let binaryData := stringToBinary serializedData in
    let fullBinary := binaryData ++ delimiter in
    if (length pixels <? length fullBinary * 4)%nat
    then (canvas, Rejected "Message too long for this image")
    else
      let pixels := encode_loop fullBinary 0 pixels in
      let canvas := putImageData canvas pixels in
      if blobAvailable canvas then (canvas, Resolved pixels)
      else (canvas, Rejected "Failed to create blob").

(** [s.endsWith(suffix)]. *)
Definition endsWith (s suffix : list bool) : bool :=
  (length suffix <=? length s)%nat &&
  bool_decide (drop (length s - length suffix) s = suffix).

(** [s.slice(0, -n)]. *)
Definition slice_to_last (s : list bool) (n : nat) : list bool :=
  take (length s - n) s.

(** The number of indices [i] with [i < length / 4]. *)
Definition iterations (length : nat) : nat := ((length + 3) / 4)%nat.

(** The extraction loop, [for (let i = 0; i < pixels.length / 4; i++)],
    entered at index [i] with [todo] iterations to go. *)
Fixpoint decode_loop (pixels : list N) (todo i : nat) (binaryData : list bool) :
  list bool :=
  match todo with
  | O => binaryData
  | S todo =>
      let pixelIndex := (i * 4)%nat in
      let bit := N.land (read pixels pixelIndex) 1 in
      let binaryData := binaryData ++ [N.odd bit] in
      if endsWith binaryData delimiter
      then slice_to_last binaryData (length delimiter)
      else decode_loop pixels todo (S i) binaryData
  end.

(** The body of the [try] block of [decodeMessage]. *)
Definition decodeMessage_try (canvas : HTMLCanvasElement) :
  completion (option JSValue) :=
  if negb (context2d canvas) then Normal None
  else
    let pixels := imageData canvas in
    let binaryData := decode_loop pixels (iterations (length pixels)) 0 [] in
    match binaryData with
    | [] => Normal None
    | _ :: _ =>
        let jsonString := binaryToString binaryData in
        match jsonString with
        | [] => Normal None
        | _ :: _ =>
            match parse jsonString with
            | Normal data => Normal (Some data)
            | Throw error => Throw error
            end
        end
    end.

(** [decodeMessage]: [None] is [null]; the [catch] clause turns every
    exception into [null].  The result of [JSON.parse] is returned as it
    is: [as SteganographyData] is erased at run time. *)
Definition decodeMessage (canvas : HTMLCanvasElement) : option JSValue :=
  match decodeMessage_try canvas with
  | Normal result => result
  | Throw _ => None
  end.

Section Geometry.
Local Open Scope R_scope.

Definition normalizeClickPoint (x y canvasWidth canvasHeight order : R) :
  ClickPoint R :=
  {| x := x / canvasWidth; y := y / canvasHeight; order := order |}.

Definition denormalizeClickPoint (point : ClickPoint R)
  (canvasWidth canvasHeight : R) : R * R :=
  (x point * canvasWidth, y point * canvasHeight).

(** [Math.pow(b, 2)]. *)
Definition pow2 (b : R) : R := b ^ 2.

Definition distance (clickX clickY targetX targetY : R) : R :=
  sqrt (pow2 (clickX - targetX) + pow2 (clickY - targetY)).


Definition isClickNearPoint (clickX clickY targetX targetY tolerance : R) : bool :=
  if Rle_dec (distance clickX clickY targetX targetY) tolerance then true else false.

End Geometry.

End Steganography.

(** ** The click matcher of [ImageCanvas] (src/components/EncodeMode.tsx)

    Numbers are exact reals here; the rounding of IEEE doubles is outside
    the model. *)
Module ImageCanvas.
Import Steganography.

(** What the component reads besides its own state: the [clickSequence]
    prop and the dimensions of the canvas element. *)
Record props := {
  clickSequence : list (ClickPoint R);
  width : R;
  height : R
}.

(** [currentStep] and [verificationAttempts] of [useState]. *)
Record state := {
  currentStep : nat;
  verificationAttempts : list (ClickPoint R)
}.

Definition initial : state :=
  {| currentStep := 0; verificationAttempts := [] |}.

(** The two callbacks that [handleVerificationClick] hands to
    [setTimeout]. *)
Inductive callback :=
| NotifySuccess
| ResetAndNotifyFailure.

Record timeout := {
  handler : callback;
  delay : nat
}.

(** [handleVerificationClick(x, y)]: the state after the call and the
    timeout it has scheduled, if any. *)
Definition handleVerificationClick (p : props) (st : state) (x y : R) :
  state * option timeout :=
  if (length (clickSequence p) <=? currentStep st)%nat then (st, None)
  else
    match clickSequence p !! currentStep st with
    | None => (st, None)
    | Some targetPoint =>
        let targetPos := denormalizeClickPoint targetPoint (width p) (height p) in
        let isCorrect := isClickNearPoint x y (fst targetPos) (snd targetPos) 25 in
        let newAttempt :=
          {| Steganography.x := (x / width p)%R;
             Steganography.y := (y / height p)%R;
             order := INR (currentStep st) |} in
        let attempts := verificationAttempts st ++ [newAttempt] in
        if isCorrect then
          let newStep := (currentStep st + 1)%nat in
          let st' := {| currentStep := newStep; verificationAttempts := attempts |} in
          if (length (clickSequence p) <=? newStep)%nat
          then (st', Some {| handler := NotifySuccess; delay := 500 |})
          else (st', None)
        else
          ({| currentStep := currentStep st; verificationAttempts := attempts |},
           Some {| handler := ResetAndNotifyFailure; delay := 1000 |})
    end.

(** Running a scheduled callback: the state afterwards and the argument
    given to [onVerificationComplete]. *)
Definition run_callback (st : state) (c : callback) : state * bool :=
  match c with
  | NotifySuccess => (st, true)
  | ResetAndNotifyFailure => (initial, false)
  end.

(** [resetVerification], also run by the effect on [isVerifying]. *)
Definition resetVerification (st : state) : state := initial.

Inductive verdict :=
| Verified
| Failed.

(** One submitted click with the feedback delay taken as zero: the click
    handler, then the callback it scheduled. *)
Definition submitClick (p : props) (st : state) (x y : R) : state * option verdict :=
  match handleVerificationClick p st x y with
  | (st', None) => (st', None)
  | (st', Some t) =>
      let '(st'', success) := run_callback st' (handler t) in
      (st'', Some (if success then Verified else Failed))
  end.

(** A stream of clicks; [true] as soon as a click is answered by
    [Verified], which ends the session. *)
Fixpoint submitAll (p : props) (st : state) (clicks : list (R * R)) : state * bool :=
  match clicks with
  | [] => (st, false)
  | (x, y) :: rest =>
      match submitClick p st x y with
      | (st', Some Verified) => (st', true)
      | (st', _) => submitAll p st' rest
      end
  end.

(** The reference points themselves, in canvas coordinates. *)
Definition referenceClicks (p : props) : list (R * R) :=
  List.map (fun point => denormalizeClickPoint point (width p) (height p))
    (clickSequence p).

End ImageCanvas.

(** ** The retry policy of [DecodeMode] (src/components/EncodeMode.tsx) *)
Module DecodeMode.
Import Json Steganography.

(** The state of the component.  A loaded image is identified with the
    canvas it is drawn on; the values taken from a decoded payload are
    kept as [JSON.parse] returned them. *)
Record state := {
  image : option HTMLCanvasElement;
  clickSequence : JSValue;
  isVerifying : bool;
  verificationSuccess : bool;
  decodedMessage : JSValue;
  attempts : nat
}.

Definition initial : state :=
  {| image := None;
     clickSequence := JArray [];
     isVerifying := false;
     verificationSuccess := false;
     decodedMessage := JString [];
     attempts := 0 |}.

(** [if (value && value[key])]: the property when both are truthy. *)
Definition truthy_property (value : option JSValue) (key : JSString) : option JSValue :=
  match value with
  | None => None
  | Some v =>
      if truthy v then
        match get v key with
        | Some w => if truthy w then Some w else None
        | None => None
        end
      else None
  end.

(** The truth value of [value.length], for a value other than [null]
    (the state [clickSequence] is never [null]). *)
Definition has_length (value : JSValue) : bool :=
  match value with
  | JArray elements => negb (bool_decide (length elements = 0%nat))
  | JString s => negb (bool_decide (length s = 0%nat))
  | JObject properties =>
      match lookup_property (js "length") properties with
      | Some v => truthy v
      | None => false
      end
  | _ => false
  end.

(** The [onload] handler installed by [handleImageUpload]. *)
Definition handleImageUpload (st : state) (img : HTMLCanvasElement) : state :=
  let st :=
    {| image := Some img;
       clickSequence := JArray [];
       isVerifying := isVerifying st;
       verificationSuccess := false;
       decodedMessage := JString [];
       attempts := 0 |} in
  if negb (context2d img) then st
  else
    match truthy_property (decodeMessage img) (js "clickSequence") with
    | Some sequence =>
        {| image := image st;
           clickSequence := sequence;
           isVerifying := isVerifying st;
           verificationSuccess := verificationSuccess st;
           decodedMessage := decodedMessage st;
           attempts := attempts st |}
    | None => st
    end.

Definition startVerification (st : state) : state :=
  if negb (has_length (clickSequence st)) then st
  else
    {| image := image st;
       clickSequence := clickSequence st;
       isVerifying := true;
       verificationSuccess := false;
       decodedMessage := decodedMessage st;
       attempts := attempts st |}.

Definition revealMessage (st : state) : state :=
  match image st with
  | None => st
  | Some img =>
      if negb (context2d img) then st
      else
        match truthy_property (decodeMessage img) (js "message") with
        | Some text =>
            {| image := image st;
               clickSequence := clickSequence st;
               isVerifying := isVerifying st;
               verificationSuccess := verificationSuccess st;
               decodedMessage := text;
               attempts := attempts st |}
        | None => st
        end
  end.

Definition resetAll (st : state) : state := initial.

(** [handleVerificationComplete(success)].  [attempts >= 2] reads the
    value of the render in which the handler was created, that is the
    counter before [setAttempts(prev => prev + 1)] takes effect. *)
Definition handleVerificationComplete (st : state) (success : bool) : state :=
  let rendered := attempts st in
  let st :=
    {| image := image st;
       clickSequence := clickSequence st;
       isVerifying := false;
       verificationSuccess := verificationSuccess st;
       decodedMessage := decodedMessage st;
       attempts := attempts st |} in
  if success then
    revealMessage
      {| image := image st;
         clickSequence := clickSequence st;
         isVerifying := isVerifying st;
         verificationSuccess := true;
         decodedMessage := decodedMessage st;
         attempts := attempts st |}
  else
    let st :=
      {| image := image st;
         clickSequence := clickSequence st;
         isVerifying := isVerifying st;
         verificationSuccess := verificationSuccess st;
         decodedMessage := decodedMessage st;
         attempts := (attempts st + 1)%nat |} in
    if (2 <=? rendered)%nat then resetAll st else st.


End DecodeMode.

(** ** Vocabulary of the specification *)
Module Spec.
Import Json Steganography.

(** Text whose characters all fit in eight bits. *)
Definition latin1 (s : JSString) : bool := forallb (fun c => c <? 256) s.

(** The least significant bit of the red channel of pixel [i]. *)
Definition red_lsb (pixels : list N) (i : nat) : bool :=
  N.testbit (read pixels (i * 4)) 0.

(** The red-channel LSBs of all pixels, in row-major order. *)
Definition lsb_stream (pixels : list N) : list bool :=
  List.map (red_lsb pixels) (seq 0 (iterations (length pixels))).

(** No prefix of [bits] ends with the terminator. *)
Definition delimiter_free (bits : list bool) : bool :=
  forallb (fun k => negb (endsWith (take k bits) delimiter))
    (seq 0 (S (length bits))).

(** The serialized payload as a bit-string, without the terminator. *)
Definition payload_bits (data : SteganographyData) : list bool :=
  stringToBinary (stringify (data_value data)).

(** Well-formed JavaScript values: strings are made of 16-bit code
    units, numbers are number literals. *)
Definition wf_string (s : JSString) : bool := forallb (fun c => c <? 65536) s.

Definition wf_number (n : number) : bool :=
  forallb is_number_char n && valid_number n.

Fixpoint wf_value (v : JSValue) : bool :=
  match v with
  | JNull | JBool _ => true
  | JNumber n => wf_number n
  | JString s => wf_string s
  | JArray elements => forallb wf_value elements
  | JObject properties =>
      forallb (fun kv => wf_string (fst kv) && wf_value (snd kv)) properties
  end.

Definition wf_point (p : ClickPoint number) : bool :=
  wf_number (x p) && wf_number (y p) && wf_number (order p).

Definition wf_data (data : SteganographyData) : bool :=
  wf_string (message data) && forallb wf_point (clickSequence data).

(** The loop as a scan of the LSB stream. *)
Fixpoint scan (stream : list bool) (binaryData : list bool) : list bool :=
  match stream with
  | [] => binaryData
  | b :: rest =>
      if endsWith (binaryData ++ [b]) delimiter
      then slice_to_last (binaryData ++ [b]) (length delimiter)
      else scan rest (binaryData ++ [b])
  end.

(** What [decodeMessage] makes of the accumulated bit-string. *)
Definition decoded (binaryData : list bool) : option JSValue :=
  match binaryData with
  | [] => None
  | _ :: _ =>
      match binaryToString binaryData with
      | [] => None
      | jsonString =>
          match parse jsonString with
          | Normal data => Some data
          | Throw _ => None
          end
      end
  end.

(** What may follow a value in a JSON text: nothing, or a character that
    cannot continue a number. *)
Definition delimits (rest : JSString) : bool :=
  match rest with
  | [] => true
  | c :: _ => negb (is_number_char c)
  end.

(** What [parse_value] is to do with the text of [v]. *)
Definition reads_back (v : JSValue) : Prop :=
  wf_value v = true ->
  forall fuel rest,
    (length (stringify v) < fuel)%nat -> delimits rest = true ->
    parse_value fuel (stringify v ++ rest) = Some (v, rest).

(** The text of one property of an object. *)
Definition member_text (kv : JSString * JSValue) : list N :=
  quote (fst kv) ++ 58 :: stringify (snd kv).

End Spec.
Import Spec.

(** ** Concrete inputs used by the examples *)
Module Examples.
Import Json Steganography Spec.
Local Open Scope string_scope.

Definition point (x y order : string) : ClickPoint number :=
  {| x := js x; y := js y; order := js order |}.

(** Three click points with coordinates in the unit square. *)
Definition demo_points : list (ClickPoint number) :=
  [point "0.25" "0.25" "0"; point "0.5" "0.75" "1"; point "0.75" "0.5" "2"].

(** A payload whose serialized form is 122 characters, 976 bits. *)
Definition demo_data : SteganographyData :=
  {| message := js "hi"; clickSequence := demo_points |}.

(** The message is the two characters U+00FF U+00FE, whose 16 bits are
    the terminator pattern. *)
Definition marker_data : SteganographyData :=
  {| message := [255; 254]; clickSequence := demo_points |}.

Definition canvas_of (pixels : list N) : HTMLCanvasElement :=
  {| context2d := true; imageData := pixels; blobAvailable := true |}.

(** An opaque white image of [n] pixels. *)
Definition white (n : nat) : HTMLCanvasElement :=
  canvas_of (replicate (4 * n) 255).

(** The image with [bits] in the red LSBs of its pixels: opaque, every
    other bit 0. *)
Definition pixels_of_bits (bits : list bool) : list N :=
  concat (List.map (fun b => [N.b2n b; 0; 0; 255]) bits).

(** A complete payload text, and a JSON text without click sequence. *)
Definition payload_text : JSString :=
  stringify (data_value {| message := js "hi"; clickSequence := [] |}).
Definition message_only_text : JSString :=
  stringify (JObject [(js "message", JString (js "hi"))]).

(** 280 pixels spelling [payload_text], no terminator. *)
Definition unterminated : HTMLCanvasElement :=
  canvas_of (pixels_of_bits (stringToBinary payload_text)).

(** 144 pixels spelling [message_only_text] and the terminator. *)
Definition message_only : HTMLCanvasElement :=
  canvas_of (pixels_of_bits (stringToBinary message_only_text ++ delimiter)).

(** The demonstration payload embedded in a white image of 992 pixels,
    and the decoder after that image has been loaded. *)
Definition encoded_demo : HTMLCanvasElement :=
  fst (encodeMessage (white 992) demo_data).


End Examples.

(** Reference sequences for the matcher examples, on a canvas of 600 by
    400. *)
Module MatcherExamples.
Import Steganography ImageCanvas.
Local Open Scope R_scope.

Definition at_point (x y : R) (order : R) : ClickPoint R :=
  {| Steganography.x := x; Steganography.y := y; order := order |}.

(** Three distinct points, the first and the last 6 pixels apart:
    (300, 200), (150, 100) and (306, 200) on the canvas. *)
Definition close_ends : props :=
  {| clickSequence :=
       [at_point (1 / 2) (1 / 2) 0; at_point (1 / 4) (1 / 4) 1;
        at_point (51 / 100) (1 / 2) 2];
     width := 600;
     height := 400 |}.

(** Three points far from each other: (60, 40), (300, 200) and
    (540, 360) on the canvas. *)
Definition far_apart : props :=
  {| clickSequence :=
       [at_point (1 / 10) (1 / 10) 0; at_point (1 / 2) (1 / 2) 1;
        at_point (9 / 10) (9 / 10) 2];
     width := 600;
     height := 400 |}.

(** Whether a click is within the matcher's tolerance of the reference
    point [t]. *)
Definition near_target (p : props) (click : R * R) (t : ClickPoint R) : bool :=
  let targetPos := denormalizeClickPoint t (width p) (height p) in
  isClickNearPoint (fst click) (snd click) (fst targetPos) (snd targetPos) 25.

End MatcherExamples.

(** ** Further vocabulary: texts, buffers and canvases *)
Module Coverage.
Import Json Steganography.

(** Text made of ASCII characters only. *)
Definition ascii (s : JSString) : bool := forallb (fun c => c <? 128) s.

(** The entries of a [Uint8ClampedArray] are below 256. *)
Definition bytes (pixels : list N) : bool := forallb (fun p => p <? 256) pixels.

(** The shortest text [JSON.stringify] produces for a payload: empty
    message, no click points (33 characters). *)
Definition shortest_text : JSString :=
  stringify (data_value {| message := []; clickSequence := [] |}).

End Coverage.
Import Coverage.

(** ** [EncodeMode] (src/components/EncodeMode.tsx): collecting the payload

    Every event is handled by the handlers of the latest render, so the
    values a handler reads are those of the current state. *)
Module EncodeMode.
Import Steganography.

Record state := {
  message : JSString;
  image : option HTMLCanvasElement;
  clickSequence : list (ClickPoint R);
  isSettingSequence : bool;
  encodedImage : option Blob
}.

Definition initial : state :=
  {| message := [];
     image := None;
     clickSequence := [];
     isSettingSequence := false;
     encodedImage := None |}.

(** The [onChange] handler of the text area. *)
Definition setMessage (st : state) (value : JSString) : state :=
  {| message := value;
     image := image st;
     clickSequence := clickSequence st;
     isSettingSequence := isSettingSequence st;
     encodedImage := encodedImage st |}.

(** The [onload] handler installed by [handleImageUpload]. *)
Definition handleImageUpload (st : state) (img : HTMLCanvasElement) : state :=
  {| message := message st;
     image := Some img;
     clickSequence := [];
     isSettingSequence := isSettingSequence st;
     encodedImage := None |}.

(** [handleCanvasClick(x, y)]; [canvas] holds the width and height of the
    canvas element found under [canvasRef], if there is one. *)
Definition handleCanvasClick (st : state) (canvas : option (R * R)) (x y : R) : state :=
  if negb (isSettingSequence st) then st
  else
    match canvas with
    | None => st
    | Some (width, height) =>
        if (4 <=? length (clickSequence st))%nat then st
        else
          let newPoint :=
            normalizeClickPoint x y width height (INR (length (clickSequence st))) in
          {| message := message st;
             image := image st;
             clickSequence := clickSequence st ++ [newPoint];
             isSettingSequence := isSettingSequence st;
             encodedImage := encodedImage st |}
    end.

Definition startSettingSequence (st : state) : state :=
  {| message := message st;
     image := image st;
     clickSequence := [];
     isSettingSequence := true;
     encodedImage := encodedImage st |}.

Definition finishSettingSequence (st : state) : state :=
  if (length (clickSequence st) <? 3)%nat then st
  else
    {| message := message st;
       image := image st;
       clickSequence := clickSequence st;
       isSettingSequence := false;
       encodedImage := encodedImage st |}.

(** The arguments of the call [encodeMessage(canvas, { message,
    clickSequence })] that [handleEncode] makes. *)
Record request := {
  canvas : HTMLCanvasElement;
  data_message : JSString;
  data_clickSequence : list (ClickPoint R)
}.

(** [handleEncode] up to its call of [encodeMessage]: [None] when the
    guard refuses or no canvas context can be had.  The image is
    identified with the canvas it is drawn on. *)
Definition handleEncode (st : state) : option request :=
  match image st with
  | None => None
  | Some img =>
      if bool_decide (message st = []) || (length (clickSequence st) <? 3)%nat
      then None
      else if negb (context2d img) then None
      else Some {| canvas := img;
                   data_message := message st;
                   data_clickSequence := clickSequence st |}
  end.

(** [handleEncode] after the promise has settled. *)
Definition encodeSettled (st : state) (outcome : settled) : state :=
  match outcome with
  | Resolved blob =>
      {| message := message st;
         image := image st;
         clickSequence := clickSequence st;
         isSettingSequence := isSettingSequence st;
         encodedImage := Some blob |}
  | Rejected _ => st
  end.

Definition resetAll (st : state) : state := initial.

(** What can happen to the component. *)
Inductive event :=
| MessageChanged (value : JSString)
| ImageLoaded (img : HTMLCanvasElement)
| CanvasClicked (canvas : option (R * R)) (x y : R)
| StartSetting
| FinishSetting
| EncodeSettled (outcome : settled)
| ResetAll.

Definition handle (st : state) (e : event) : state :=
  match e with
  | MessageChanged value => setMessage st value
  | ImageLoaded img => handleImageUpload st img
  | CanvasClicked canvas x y => handleCanvasClick st canvas x y
  | StartSetting => startSettingSequence st
  | FinishSetting => finishSettingSequence st
  | EncodeSettled outcome => encodeSettled st outcome
  | ResetAll => resetAll st
  end.

Definition run (st : state) (events : list event) : state :=
  fold_left handle events st.

(** A click that lands on a canvas of positive size, within it. *)
Definition on_canvas (e : event) : Prop :=
  match e with
  | CanvasClicked (Some (width, height)) x y =>
      (0 < width /\ 0 < height /\ 0 <= x <= width /\ 0 <= y <= height)%R
  | CanvasClicked None _ _ => True
  | _ => True
  end.

(** The points are numbered from 0 in the order in which they were set. *)
Definition numbered (points : list (ClickPoint R)) : Prop :=
  forall i point, points !! i = Some point -> order point = INR i.

(** The coordinates of a point are fractions of the canvas size. *)
Definition in_unit_square (point : ClickPoint R) : Prop :=
  (0 <= x point <= 1 /\ 0 <= y point <= 1)%R.

(** What every state of the component satisfies. *)
Definition well_formed (st : state) : Prop :=
  (length (clickSequence st) <= 4)%nat /\ numbered (clickSequence st).

End EncodeMode.

(** ** [ImageCanvas.handleCanvasClick]: from the pointer event to canvas
    coordinates, and on to the matcher or to the parent. *)
Module CanvasClick.
Import Steganography.
Local Open Scope R_scope.

(** [canvas.getBoundingClientRect()]. *)
Record DOMRect := {
  left : R;
  top : R;
  rect_width : R;
  rect_height : R
}.

(** Where the click goes. *)
Inductive routed :=
| ToVerification (x y : R)
| ToParent (x y : R)
| Dropped.

(** [handleCanvasClick(event)]; [canvas] is [canvasRef.current] with its
    width, height and bounding rectangle, [onCanvasClick] tells whether
    the prop is given. *)
Definition handleCanvasClick (canvas : option (R * R * DOMRect))
  (isVerifying : bool) (sequenceLength : nat) (onCanvasClick : bool)
  (clientX clientY : R) : routed :=
  match canvas with
  | None => Dropped
  | Some (width, height, rect) =>
      let x := clientX - left rect in
      let y := clientY - top rect in
      let scaleX := width / rect_width rect in
      let scaleY := height / rect_height rect in
      let canvasX := x * scaleX in
      let canvasY := y * scaleY in
      if isVerifying && (0 <? sequenceLength)%nat then ToVerification canvasX canvasY
      else if onCanvasClick then ToParent canvasX canvasY
      else Dropped
  end.

End CanvasClick.

(** ** [DecodeMode]: the handlers as events *)
Module DecodeSession.
Import Json Steganography DecodeMode.

(** The [onClick] handler of the button shown while verifying,
    [() => setIsVerifying(false)]. *)
Definition cancelVerification (st : state) : state :=
  {| image := image st;
     clickSequence := clickSequence st;
     isVerifying := false;
     verificationSuccess := verificationSuccess st;
     decodedMessage := decodedMessage st;
     attempts := attempts st |}.

Inductive event :=
| ImageLoaded (img : HTMLCanvasElement)
| Start
| Complete (success : bool)
| Cancel
| Reset.

Definition handle (st : state) (e : event) : state :=
  match e with
  | ImageLoaded img => handleImageUpload st img
  | Start => startVerification st
  | Complete success => handleVerificationComplete st success
  | Cancel => cancelVerification st
  | Reset => resetAll st
  end.

Definition run (st : state) (events : list event) : state :=
  fold_left handle events st.


End DecodeSession.

(** The session-state invariant of the matcher. *)
Module MatcherSpec.
Import Steganography ImageCanvas.

(** The step is inside the sequence or just past it, and the log holds
    one entry per step. *)
Definition consistent_step (p : props) (st : state) : Prop :=
  (currentStep st <= length (clickSequence p))%nat /\
  length (verificationAttempts st) = currentStep st.

End MatcherSpec.
Import MatcherSpec.

(** Concrete event traces for the examples. *)
Module TraceExamples.
Import Steganography Examples.

(** An image is loaded, the message typed, three points set on a canvas of
    600 by 400 and the sequence finished. *)
Definition three_points : list EncodeMode.event :=
  [EncodeMode.ImageLoaded (white 992);
   EncodeMode.MessageChanged (js "hi");
   EncodeMode.StartSetting;
   EncodeMode.CanvasClicked (Some (600, 400)%R) 60 40;
   EncodeMode.CanvasClicked (Some (600, 400)%R) 300 200;
   EncodeMode.CanvasClicked (Some (600, 400)%R) 540 360;
   EncodeMode.FinishSetting].

(** Six clicks while setting the sequence. *)
Definition six_clicks : list EncodeMode.event :=
  [EncodeMode.ImageLoaded (white 992);
   EncodeMode.StartSetting;
   EncodeMode.CanvasClicked (Some (600, 400)%R) 60 40;
   EncodeMode.CanvasClicked (Some (600, 400)%R) 300 200;
   EncodeMode.CanvasClicked (Some (600, 400)%R) 540 360;
   EncodeMode.CanvasClicked (Some (600, 400)%R) 10 10;
   EncodeMode.CanvasClicked (Some (600, 400)%R) 20 20;
   EncodeMode.CanvasClicked (Some (600, 400)%R) 30 30].


(** Four failed sessions on the demonstration image, then one more start. *)
Definition four_failures : list DecodeSession.event :=
  [DecodeSession.ImageLoaded encoded_demo;
   DecodeSession.Start; DecodeSession.Complete false;
   DecodeSession.Start; DecodeSession.Complete false;
   DecodeSession.Start; DecodeSession.Complete false;
   DecodeSession.ImageLoaded encoded_demo;
   DecodeSession.Start; DecodeSession.Complete false].


End TraceExamples.

(** * Properties *)

(** ** Checking a property of all small numbers by evaluation *)

Lemma N_forall_below (P : N -> bool) (n : nat) :
  forallb P (List.map N.of_nat (seq 0 n)) = true ->
  forall c, c < N.of_nat n -> P c = true.
Proof.
  intros H c Hc. rewrite forallb_forall in H. apply H.
  apply in_map_iff. exists (N.to_nat c). split.
  - apply N2Nat.id.
  - apply in_seq. lia.
Qed.

(** ** Binary strings *)
Section Binary.
Import Json Steganography.

Lemma char_bits_below_256 (c : N) :
  c < 256 ->
  length (padStart 8 (toString2 c)) = 8%nat /\
  parseInt2 (padStart 8 (toString2 c)) = c.
Proof.
  intros Hc.
  pose (P := fun c => (length (padStart 8 (toString2 c)) =? 8)%nat
                      && (parseInt2 (padStart 8 (toString2 c)) =? c)).
  assert (HP : P c = true).
  { apply (N_forall_below P 256); [vm_compute; reflexivity | exact Hc]. }
  unfold P in HP. apply andb_true_iff in HP as [H1 H2].
  split; [by apply Nat.eqb_eq | by apply N.eqb_eq].
Qed.

Lemma latin1_Forall (s : JSString) :
  latin1 s = true -> Forall (fun c => c < 256) s.
Proof.
  unfold latin1. rewrite forallb_forall, Forall_forall. intros H c Hc.
  apply N.ltb_lt, H. by apply list_elem_of_In.
Qed.

Lemma match_all_8_app (byte rest : list bool) :
  length byte = 8%nat -> match_all_8 (byte ++ rest) = byte :: match_all_8 rest.
Proof.
  intros H. do 9 (destruct byte as [|? byte]; try discriminate H). reflexivity.
Qed.

Lemma match_all_8_stringToBinary (s : JSString) :
  latin1 s = true ->
  match_all_8 (stringToBinary s) = List.map (fun c => padStart 8 (toString2 c)) s.
Proof.
  intros Hs%latin1_Forall. induction Hs as [|c s Hc _ IH]; [reflexivity|].
  unfold stringToBinary in *. cbn [List.map concat].
  rewrite match_all_8_app by (apply char_bits_below_256, Hc).
  by rewrite IH.
Qed.

(** The part of the claimed round trip that the code does provide: text
    whose code units all fit in 8 bits is read back unchanged. *)
Lemma binaryToString_stringToBinary (s : JSString) :
  latin1 s = true -> binaryToString (stringToBinary s) = s.
Proof.
  intros Hs. unfold binaryToString, match_8.
  rewrite match_all_8_stringToBinary by exact Hs.
  apply latin1_Forall in Hs. destruct Hs as [|c s Hc Hs]; [reflexivity|].
  cbn [List.map]. f_equal.
  - apply char_bits_below_256, Hc.
  - induction Hs as [|d s Hd _ IH]; [reflexivity|].
    cbn [List.map]. f_equal; [apply char_bits_below_256, Hd | exact IH].
Qed.

Lemma length_stringToBinary (s : JSString) :
  latin1 s = true -> length (stringToBinary s) = (8 * length s)%nat.
Proof.
  intros Hs%latin1_Forall. induction Hs as [|c s Hc _ IH]; [reflexivity|].
  unfold stringToBinary in *. cbn [List.map concat].
  rewrite length_app, IH. cbn [length].
  destruct (char_bits_below_256 c Hc) as [-> _]. lia.
Qed.

End Binary.

(** ** The embedding loop *)
Section Embedding.
Import Json Steganography.

Lemma encode_loop_length (bits : list bool) (i : nat) (pixels : list N) :
  length (encode_loop bits i pixels) = length pixels.
Proof.
  revert i pixels. induction bits as [|b bits IH]; intros i pixels; [reflexivity|].
  cbn [encode_loop]. by rewrite IH, length_insert.
Qed.

(** Entries that are not the red channel of one of the pixels
    [i .. i + length bits - 1] keep their value. *)
Lemma encode_loop_other (bits : list bool) (i : nat) (pixels : list N) (j : nat) :
  (forall k, (k < length bits)%nat -> j <> ((i + k) * 4)%nat) ->
  encode_loop bits i pixels !! j = pixels !! j.
Proof.
  revert i pixels. induction bits as [|b bits IH]; intros i pixels Hj; [reflexivity|].
  cbn [encode_loop]. rewrite IH.
  - apply list_lookup_insert_ne. intros Heq.
    apply (Hj 0%nat); [cbn [length]; lia | lia].
  - intros k Hk. specialize (Hj (S k)). cbn [length] in Hj.
    replace (S i + k)%nat with (i + S k)%nat by lia. apply Hj. lia.
Qed.

(** The red channel of pixel [i + k] receives bit [k]. *)
Lemma encode_loop_written (bits : list bool) (i : nat) (pixels : list N) (k : nat) (b : bool) :
  bits !! k = Some b ->
  ((i + k) * 4 < length pixels)%nat ->
  encode_loop bits i pixels !! ((i + k) * 4)%nat =
    Some (N.lor (N.land (read pixels ((i + k) * 4)) 254) (N.b2n b)).
Proof.
  revert i pixels k. induction bits as [|b0 bits IH]; intros i pixels k Hk Hlen.
  - discriminate Hk.
  - cbn [encode_loop]. destruct k as [|k].
    + injection Hk as ->. rewrite Nat.add_0_r in *.
      rewrite encode_loop_other by (intros k _; lia).
      by apply list_lookup_insert_eq.
    + cbn in Hk. replace (i + S k)%nat with (S i + k)%nat in * by lia.
      rewrite IH; [|exact Hk|by rewrite length_insert].
      unfold read. rewrite list_lookup_insert_ne by lia. reflexivity.
Qed.

Lemma lsb_written (p : N) (b : bool) :
  N.testbit (N.lor (N.land p 254) (N.b2n b)) 0 = b.
Proof.
  rewrite N.lor_spec, N.land_spec. change (N.testbit 254 0) with false.
  rewrite andb_false_r. cbn [orb]. by destruct b.
Qed.

Lemma upper_bits_kept (p : N) (b : bool) (n : N) :
  0 < n < 8 ->
  N.testbit (N.lor (N.land p 254) (N.b2n b)) n = N.testbit p n.
Proof.
  intros Hn. rewrite N.lor_spec, N.land_spec.
  assert (Hb : N.testbit (N.b2n b) n = false).
  { apply N.bits_above_log2. destruct b; cbn; lia. }
  rewrite Hb, orb_false_r.
  assert (H254 : N.testbit 254 n = true).
  { assert (Hcases : n = 1 \/ n = 2 \/ n = 3 \/ n = 4 \/ n = 5 \/ n = 6 \/ n = 7) by lia.
    destruct Hcases as [->|[->|[->|[->|[->|[->| ->]]]]]]; reflexivity. }
  by rewrite H254, andb_true_r.
Qed.

End Embedding.

(** ** The extraction loop *)
Section Extraction.
Import Json Steganography.

Lemma land_1_odd (p : N) : N.odd (N.land p 1) = N.testbit p 0.
Proof.
  rewrite <- !N.bit0_odd, N.land_spec. change (N.testbit 1 0) with true.
  apply andb_true_r.
Qed.

Lemma decode_loop_scan (pixels : list N) (todo i : nat) (acc : list bool) :
  decode_loop pixels todo i acc = scan (List.map (red_lsb pixels) (seq i todo)) acc.
Proof.
  revert i acc. induction todo as [|todo IH]; intros i acc; [reflexivity|].
  cbn [decode_loop seq List.map scan]. unfold red_lsb at 1 2.
  rewrite land_1_odd. destruct (endsWith _ _); [reflexivity | apply IH].
Qed.

Lemma endsWith_true (s suffix : list bool) :
  endsWith s suffix = true <-> exists pre, s = pre ++ suffix.
Proof.
  unfold endsWith. rewrite andb_true_iff, bool_decide_eq_true, Nat.leb_le. split.
  - intros [_ H]. exists (take (length s - length suffix) s).
    pose proof (take_drop (length s - length suffix) s) as E.
    rewrite H in E. symmetry. exact E.
  - intros [pre ->]. rewrite length_app. split; [lia|].
    replace (length pre + length suffix - length suffix)%nat with (length pre) by lia.
    by rewrite drop_app_length.
Qed.

Lemma endsWith_ends_in_one (l : list bool) :
  endsWith (l ++ [true]) delimiter = false.
Proof.
  apply not_true_is_false. rewrite endsWith_true. intros [pre H].
  change delimiter with (replicate 15 true ++ [false]) in H.
  rewrite app_assoc in H. apply app_inj_tail in H as [_ H]. discriminate H.
Qed.

Lemma delimiter_free_prefix (bits : list bool) (k : nat) :
  delimiter_free bits = true -> endsWith (take k bits) delimiter = false.
Proof.
  unfold delimiter_free. rewrite forallb_forall. intros H.
  destruct (Nat.le_gt_cases k (length bits)) as [Hk|Hk].
  - apply negb_true_iff, H, in_seq. lia.
  - rewrite take_ge by lia. rewrite <- (take_ge bits (length bits)) by lia.
    apply negb_true_iff, H, in_seq. lia.
Qed.

(** As long as nothing read so far ends with the terminator, the scan only
    accumulates. *)
Lemma scan_app (s1 s2 acc : list bool) :
  (forall k, (1 <= k <= length s1)%nat ->
             endsWith (acc ++ take k s1) delimiter = false) ->
  scan (s1 ++ s2) acc = scan s2 (acc ++ s1).
Proof.
  revert acc. induction s1 as [|b s1 IH]; intros acc H.
  - by rewrite app_nil_r.
  - cbn [app scan].
    assert (H1 : endsWith (acc ++ [b]) delimiter = false).
    { apply (H 1%nat). cbn [length]. lia. }
    rewrite H1, IH; [by rewrite <- app_assoc|].
    intros k Hk. rewrite <- app_assoc. apply (H (S k)). cbn [length]. lia.
Qed.

(** Without a terminator the whole stream is returned. *)
Lemma scan_delimiter_free (stream : list bool) :
  delimiter_free stream = true -> scan stream [] = stream.
Proof.
  intros H. rewrite <- (app_nil_r stream) at 1. rewrite scan_app; [reflexivity|].
  intros k _. by apply delimiter_free_prefix.
Qed.

(** The scan stops at the first terminator and returns what precedes it. *)
Lemma scan_delimiter (bits rest : list bool) :
  delimiter_free bits = true ->
  scan (bits ++ delimiter ++ rest) [] = bits.
Proof.
  intros H. change delimiter with (replicate 15 true ++ [false]).
  rewrite <- (app_assoc (replicate 15 true)), (app_assoc bits).
  rewrite scan_app.
  - cbn [app scan]. rewrite <- app_assoc.
    change (replicate 15 true ++ [false]) with delimiter.
    assert (He : endsWith (bits ++ delimiter) delimiter = true)
      by (apply endsWith_true; eauto).
    rewrite He. unfold slice_to_last. rewrite length_app.
    replace (length bits + length delimiter - length delimiter)%nat
      with (length bits) by lia.
    by rewrite take_app_length.
  - intros k Hk. cbn [app].
    destruct (Nat.le_gt_cases k (length bits)) as [Hle|Hgt].
    + rewrite take_app_le by lia. by apply delimiter_free_prefix.
    + rewrite take_app_ge by lia. rewrite take_replicate.
      rewrite length_app, length_replicate in Hk.
      destruct (Nat.min_spec (k - length bits) 15) as [[_ ->]|[_ ->]].
      * destruct (k - length bits)%nat as [|j] eqn:Hj; [lia|].
        rewrite replicate_S_end, app_assoc. apply endsWith_ends_in_one.
      * change (replicate 15 true) with (replicate 14 true ++ [true]).
        rewrite app_assoc. apply endsWith_ends_in_one.
Qed.

End Extraction.

(** ** The LSB stream of an encoded buffer *)
Section Stream.
Import Json Steganography.

Lemma map_seq_lookup {A} (f : nat -> A) (l : list A) (i : nat) :
  (forall k a, l !! k = Some a -> f (i + k)%nat = a) ->
  List.map f (seq i (length l)) = l.
Proof.
  revert i. induction l as [|a l IH]; intros i H; [reflexivity|].
  cbn [length seq List.map]. f_equal.
  - rewrite <- (Nat.add_0_r i). by apply H.
  - apply IH. intros k a' Hk. replace (S i + k)%nat with (i + S k)%nat by lia.
    by apply H.
Qed.

Lemma iterations_ge (len m : nat) : (m * 4 <= len)%nat -> (m <= iterations len)%nat.
Proof.
  intros H. unfold iterations. apply Nat.div_le_lower_bound; lia.
Qed.

Lemma iterations_4 (n : nat) : iterations (4 * n) = n.
Proof.
  unfold iterations. symmetry. apply (Nat.div_unique _ 4 n 3); lia.
Qed.

Lemma red_lsb_written (bits : list bool) (pixels : list N) (k : nat) (b : bool) :
  bits !! k = Some b -> (k * 4 < length pixels)%nat ->
  red_lsb (encode_loop bits 0 pixels) k = b.
Proof.
  intros Hk Hlen. unfold red_lsb.
  pose proof (encode_loop_written bits 0 pixels k b Hk Hlen) as H.
  cbn [Nat.add] in H. unfold read at 1. rewrite H. apply lsb_written.
Qed.

Lemma red_lsb_other (bits : list bool) (pixels : list N) (j : nat) :
  (length bits <= j)%nat ->
  red_lsb (encode_loop bits 0 pixels) j = red_lsb pixels j.
Proof.
  intros Hj. unfold red_lsb, read. rewrite encode_loop_other; [reflexivity|].
  intros k Hk. lia.
Qed.

Lemma lsb_stream_encoded (bits : list bool) (pixels : list N) :
  (length bits * 4 <= length pixels)%nat ->
  lsb_stream (encode_loop bits 0 pixels) =
    bits ++ drop (length bits) (lsb_stream pixels).
Proof.
  intros Hcap. unfold lsb_stream. rewrite encode_loop_length.
  pose proof (iterations_ge _ _ Hcap) as Hm.
  replace (iterations (length pixels))
    with (length bits + (iterations (length pixels) - length bits))%nat by lia.
  rewrite seq_app, !map_app. cbn [Nat.add].
  rewrite drop_app_length' by (by rewrite length_map, length_seq).
  f_equal.
  - apply map_seq_lookup. intros k b Hk. cbn [Nat.add].
    apply red_lsb_written; [exact Hk|].
    apply lookup_lt_Some in Hk. lia.
  - apply map_ext_in. intros j Hj. apply in_seq in Hj.
    apply red_lsb_other. lia.
Qed.

End Stream.

(** ** JSON: what [stringify] prints, [parse] reads back *)
Section JsonRoundTrip.
Import Json Steganography.

Lemma JSValue_ind (P : JSValue -> Prop) :
  P JNull ->
  (forall b, P (JBool b)) ->
  (forall n, P (JNumber n)) ->
  (forall s, P (JString s)) ->
  (forall elements, Forall P elements -> P (JArray elements)) ->
  (forall properties, Forall (fun kv => P (snd kv)) properties -> P (JObject properties)) ->
  forall v, P v.
Proof.
  intros Hnull Hbool Hnum Hstr Harr Hobj.
  fix IH 1. intros [ |b|n|s|elements|properties].
  - exact Hnull.
  - apply Hbool.
  - apply Hnum.
  - apply Hstr.
  - apply Harr. induction elements as [|v elements IHl]; constructor.
    + apply IH.
    + exact IHl.
  - apply Hobj. induction properties as [|[k v] properties IHl]; constructor.
    + apply IH.
    + exact IHl.
Qed.

(** *** Strings *)

Lemma hex_value_hex_digit (d : N) :
  d < 16 -> hex_value (hex_digit d) = Some d.
Proof.
  intros Hd.
  pose (P := fun d => match hex_value (hex_digit d) with
                      | Some u => u =? d
                      | None => false
                      end).
  assert (HP : P d = true).
  { apply (N_forall_below P 16); [vm_compute; reflexivity | exact Hd]. }
  unfold P in HP. destruct (hex_value _) as [u|]; [|discriminate HP].
  apply N.eqb_eq in HP. by subst.
Qed.

Lemma hex_digits_value (c : N) :
  c < 65536 ->
  ((c / 4096 mod 16 * 16 + c / 256 mod 16) * 16 + c / 16 mod 16) * 16 + c mod 16 = c.
Proof.
  intros Hc.
  pose proof (N.div_mod c 16 ltac:(discriminate)) as H0.
  pose proof (N.div_mod (c / 16) 16 ltac:(discriminate)) as H1.
  pose proof (N.div_mod (c / 256) 16 ltac:(discriminate)) as H2.
  rewrite (N.Div0.div_div c 16 16) in H1. rewrite (N.Div0.div_div c 256 16) in H2.
  change (16 * 16) with 256 in H1. change (256 * 16) with 4096 in H2.
  assert (H3 : c / 4096 < 16) by (apply N.Div0.div_lt_upper_bound; exact Hc).
  rewrite (N.mod_small (c / 4096) 16) by exact H3.
  lia.
Qed.

Lemma hex4_unicode_escape (c : N) :
  c < 65536 ->
  hex4 (hex_digit (c / 4096 mod 16)) (hex_digit (c / 256 mod 16))
       (hex_digit (c / 16 mod 16)) (hex_digit (c mod 16)) = Some c.
Proof.
  intros Hc. unfold hex4.
  rewrite !hex_value_hex_digit by (apply N.mod_lt; discriminate).
  by rewrite hex_digits_value.
Qed.

Lemma parse_chars_unicode_escape (c : N) (r : JSString) :
  c < 65536 ->
  parse_chars (unicode_escape c ++ r) = cons_unit c (parse_chars r).
Proof.
  intros Hc. unfold unicode_escape. cbn [app parse_chars].
  change (92 =? 34) with false. change (92 =? 92) with true.
  change (117 =? 117) with true. cbn match.
  by rewrite hex4_unicode_escape.
Qed.

Lemma parse_chars_literal (c : N) (r : JSString) :
  32 <= c -> c <> 34 -> c <> 92 ->
  parse_chars (c :: r) = cons_unit c (parse_chars r).
Proof.
  intros H32 H34 H92. cbn [parse_chars].
  apply N.eqb_neq in H34, H92. rewrite H34, H92.
  assert (H : (c <? 32) = false) by (apply N.ltb_ge; exact H32).
  by rewrite H.
Qed.

Lemma parse_chars_quote_unit (c : N) (r : JSString) :
  c < 65536 ->
  parse_chars (quote_unit c ++ r) = cons_unit c (parse_chars r).
Proof.
  intros Hc. unfold quote_unit.
  repeat match goal with
         | |- context [if ?c =? ?k then _ else _] =>
             destruct (N.eqb_spec c k) as [->|?]; [reflexivity|]
         end.
  destruct (N.ltb_spec c 32).
  - by apply parse_chars_unicode_escape.
  - by apply parse_chars_literal.
Qed.

Lemma surrogate_literal (c : N) (r : JSString) :
  is_high_surrogate c || is_low_surrogate c = true ->
  parse_chars (c :: r) = cons_unit c (parse_chars r).
Proof.
  unfold is_high_surrogate, is_low_surrogate.
  rewrite orb_true_iff, !andb_true_iff, !N.leb_le. intros H.
  apply parse_chars_literal; lia.
Qed.

Lemma parse_chars_quote_units (s rest : JSString) :
  wf_string s = true ->
  parse_chars (quote_units s ++ 34 :: rest) = Some (s, rest).
Proof.
  remember (length s) as n eqn:Hn. revert s Hn.
  induction n as [n IH] using lt_wf_ind. intros s Hn Hwf.
  destruct s as [|c r]; [reflexivity|].
  cbn [wf_string forallb] in Hwf. apply andb_true_iff in Hwf as [Hc Hr].
  apply N.ltb_lt in Hc. cbn [length] in Hn.
  assert (IHr : parse_chars (quote_units r ++ 34 :: rest) = Some (r, rest)).
  { apply (IH (length r)); [lia | reflexivity | exact Hr]. }
  cbn [quote_units]. destruct (is_high_surrogate c) eqn:Hhigh.
  - destruct r as [|d r'].
    + rewrite parse_chars_unicode_escape by exact Hc. reflexivity.
    + destruct (is_low_surrogate d) eqn:Hlow.
      * cbn [app]. rewrite !surrogate_literal by (rewrite ?Hhigh, ?Hlow; by rewrite ?orb_true_r).
        cbn [forallb] in Hr. apply andb_true_iff in Hr as [_ Hr'].
        rewrite (IH (length r')); [reflexivity | cbn [length] in Hn; lia | reflexivity | exact Hr'].
      * rewrite <- app_assoc, parse_chars_unicode_escape by exact Hc.
        by rewrite IHr.
  - destruct (is_low_surrogate c) eqn:Hlow.
    + rewrite <- app_assoc, parse_chars_unicode_escape by exact Hc. by rewrite IHr.
    + rewrite <- app_assoc, parse_chars_quote_unit by exact Hc. by rewrite IHr.
Qed.

(** *** Numbers *)

Lemma span_number_app (n rest : JSString) :
  forallb is_number_char n = true -> delimits rest = true ->
  span_number (n ++ rest) = (n, rest).
Proof.
  intros Hn Hrest. induction n as [|c n IH].
  - destruct rest as [|c rest]; [reflexivity|].
    cbn in *. apply negb_true_iff in Hrest. by rewrite Hrest.
  - cbn [forallb] in Hn. apply andb_true_iff in Hn as [Hc Hn].
    cbn [app span_number]. by rewrite Hc, IH.
Qed.

Lemma number_char_cases (c : N) :
  is_number_char c = true ->
  48 <= c <= 57 \/ c = 45 \/ c = 43 \/ c = 46 \/ c = 101 \/ c = 69.
Proof.
  unfold is_number_char, is_digit.
  rewrite !orb_true_iff, andb_true_iff, !N.leb_le, !N.eqb_eq. tauto.
Qed.

Lemma parse_value_number (n rest : JSString) (fuel : nat) :
  wf_number n = true -> delimits rest = true ->
  parse_value (S fuel) (n ++ rest) = Some (JNumber n, rest).
Proof.
  intros Hwf Hrest. unfold wf_number in Hwf.
  apply andb_true_iff in Hwf as [Hchars Hvalid].
  assert (Hp : parse_number (n ++ rest) = Some (JNumber n, rest)).
  { unfold parse_number. by rewrite span_number_app, Hvalid. }
  destruct n as [|c n]; [discriminate Hvalid|].
  cbn [forallb] in Hchars. apply andb_true_iff in Hchars as [Hc _].
  apply number_char_cases in Hc.
  cbn [app] in *. cbn [parse_value skip_ws].
  assert (Hws : is_ws c = false).
  { unfold is_ws. rewrite !orb_false_iff, !N.eqb_neq. lia. }
  rewrite Hws.
  assert (H123 : (c =? 123) = false) by (apply N.eqb_neq; lia).
  assert (H91 : (c =? 91) = false) by (apply N.eqb_neq; lia).
  assert (H34 : (c =? 34) = false) by (apply N.eqb_neq; lia).
  rewrite H123, H91, H34. unfold parse_literal. cbn [js List.map list_ascii_of_string strip_prefix].
  assert (Ht : (N_of_ascii "t" =? c) = false) by (apply N.eqb_neq; cbn; lia).
  assert (Hf : (N_of_ascii "f" =? c) = false) by (apply N.eqb_neq; cbn; lia).
  assert (Hn : (N_of_ascii "n" =? c) = false) by (apply N.eqb_neq; cbn; lia).
  rewrite Ht, Hf, Hn. exact Hp.
Qed.

End JsonRoundTrip.

(** *** Values *)
Section JsonValues.
Import Json Steganography.

(** The text of a value starts with a character that is neither white
    space nor a closing bracket. *)
Lemma stringify_head (v : JSValue) :
  wf_value v = true ->
  exists c t, stringify v = c :: t /\ is_ws c = false /\ (c =? 93) = false.
Proof.
  destruct v as [ |[|]|n|s|elements|properties]; intros Hwf;
    try (eexists _, _; split; [reflexivity | split; reflexivity]).
  cbn in Hwf. unfold wf_number in Hwf. apply andb_true_iff in Hwf as [Hchars Hvalid].
  destruct n as [|c n]; [discriminate Hvalid|].
  cbn [forallb] in Hchars. apply andb_true_iff in Hchars as [Hc _].
  apply number_char_cases in Hc. exists c, n. split; [reflexivity|].
  unfold is_ws. rewrite !orb_false_iff, !N.eqb_neq. lia.
Qed.

Lemma skip_ws_head (c : N) (r : JSString) :
  is_ws c = false -> skip_ws (c :: r) = c :: r.
Proof. intros H. cbn [skip_ws]. by rewrite H. Qed.

Lemma length_join_comma_cons (t : JSString) (ts : list JSString) :
  ts <> [] ->
  length (join_comma (t :: ts)) = (length t + 1 + length (join_comma ts))%nat.
Proof.
  destruct ts as [|t' ts]; [done|]. intros _.
  cbn [join_comma]. rewrite length_app. cbn [length]. lia.
Qed.

Lemma parse_elements_join (elements : list JSValue) :
  Forall reads_back elements ->
  forallb wf_value elements = true ->
  elements <> [] ->
  forall fuel rest,
    (length (join_comma (List.map stringify elements)) + 2 <= fuel)%nat ->
    parse_elements fuel (join_comma (List.map stringify elements) ++ 93 :: rest)
    = Some (elements, rest).
Proof.
  induction 1 as [|v elements Hv _ IH]; [done|].
  intros Hwf _ fuel rest Hfuel.
  cbn [forallb] in Hwf. apply andb_true_iff in Hwf as [Hwfv Hwfl].
  destruct fuel as [|fuel]; [lia|].
  destruct elements as [|v' elements].
  - cbn [List.map join_comma] in *. cbn [parse_elements].
    rewrite (Hv Hwfv) by (done || lia). reflexivity.
  - cbn [List.map] in Hfuel |- *.
    rewrite length_join_comma_cons in Hfuel by done.
    change (join_comma (stringify v :: stringify v' :: List.map stringify elements))
      with (stringify v ++ 44 :: join_comma (List.map stringify (v' :: elements))).
    rewrite <- app_assoc. cbn [app parse_elements].
    rewrite (Hv Hwfv) by (done || lia). rewrite skip_ws_head by reflexivity.
    change (44 =? 44) with true. cbn match.
    rewrite IH; [reflexivity | exact Hwfl | done |].
    cbn [List.map]. lia.
Qed.

Lemma quote_app (s rest : JSString) :
  quote s ++ rest = 34 :: quote_units s ++ 34 :: rest.
Proof. unfold quote. cbn [app]. by rewrite <- app_assoc. Qed.

Lemma member_text_app (k : JSString) (v : JSValue) (rest : JSString) :
  member_text (k, v) ++ rest = 34 :: quote_units k ++ 34 :: 58 :: stringify v ++ rest.
Proof. unfold member_text. cbn [fst snd]. by rewrite <- app_assoc, quote_app. Qed.

Lemma parse_members_join (properties : list (JSString * JSValue)) :
  Forall (fun kv => reads_back (snd kv)) properties ->
  forallb (fun kv => wf_string (fst kv) && wf_value (snd kv)) properties = true ->
  properties <> [] ->
  forall fuel rest,
    (length (join_comma (List.map member_text properties)) + 2 <= fuel)%nat ->
    parse_members fuel (join_comma (List.map member_text properties) ++ 125 :: rest)
    = Some (properties, rest).
Proof.
  induction 1 as [|[k v] properties Hv _ IH]; [done|].
  intros Hwf _ fuel rest Hfuel.
  cbn [forallb fst snd] in Hwf, Hv.
  apply andb_true_iff in Hwf as [Hwfkv Hwfl].
  apply andb_true_iff in Hwfkv as [Hwfk Hwfv].
  destruct fuel as [|fuel]; [lia|].
  assert (Hlen : (length (stringify v) < length (member_text (k, v)))%nat).
  { unfold member_text. rewrite length_app. cbn [length snd]. lia. }
  destruct properties as [|kv' properties].
  - cbn [List.map join_comma] in *.
    rewrite member_text_app. cbn [parse_members]. rewrite skip_ws_head by reflexivity.
    change (34 =? 34) with true. cbn match.
    rewrite parse_chars_quote_units by exact Hwfk.
    rewrite skip_ws_head by reflexivity. change (58 =? 58) with true. cbn match.
    rewrite (Hv Hwfv) by (done || lia). reflexivity.
  - cbn [List.map] in Hfuel |- *.
    rewrite length_join_comma_cons in Hfuel by done.
    change (join_comma (member_text (k, v) :: member_text kv' :: List.map member_text properties))
      with (member_text (k, v) ++ 44 :: join_comma (List.map member_text (kv' :: properties))).
    rewrite <- app_assoc. cbn [app]. rewrite member_text_app. cbn [parse_members]. rewrite skip_ws_head by reflexivity.
    change (34 =? 34) with true. cbn match.
    rewrite parse_chars_quote_units by exact Hwfk.
    rewrite skip_ws_head by reflexivity. change (58 =? 58) with true. cbn match.
    rewrite (Hv Hwfv) by (done || lia). rewrite skip_ws_head by reflexivity.
    change (44 =? 44) with true. cbn match.
    rewrite IH; [reflexivity | exact Hwfl | done |].
    cbn [List.map]. lia.
Qed.

Lemma parse_value_stringify (v : JSValue) : reads_back v.
Proof.
  induction v as [ |b|n|s|elements IH|properties IH] using JSValue_ind;
    intros Hwf fuel rest Hfuel Hrest; (destruct fuel as [|fuel]; [lia|]).
  - reflexivity.
  - by destruct b.
  - by apply parse_value_number.
  - cbn [stringify]. rewrite quote_app.
    cbn [parse_value]. rewrite skip_ws_head by reflexivity.
    change (34 =? 123) with false. change (34 =? 91) with false.
    change (34 =? 34) with true. cbn match.
    by rewrite parse_chars_quote_units.
  - cbn [stringify wf_value] in *. destruct elements as [|v elements]; [reflexivity|].
    cbn [app]. rewrite <- app_assoc. cbn [app parse_value].
    rewrite skip_ws_head by reflexivity.
    change (91 =? 123) with false. change (91 =? 91) with true. cbn match.
    assert (Hhead : exists c t,
               join_comma (List.map stringify (v :: elements)) ++ 93 :: rest = c :: t
               /\ is_ws c = false /\ (c =? 93) = false).
    { cbn [forallb] in Hwf. apply andb_true_iff in Hwf as [Hwfv _].
      destruct (stringify_head v Hwfv) as (c & t & Ht & Hws & H93).
      cbn [List.map join_comma]. rewrite Ht.
      destruct (List.map stringify elements); eexists c, _; (split; [reflexivity|done]). }
    destruct Hhead as (c & t & Ht & Hws & H93).
    pose proof (parse_elements_join _ IH Hwf ltac:(done) fuel rest) as Hp.
    rewrite Ht in *. rewrite skip_ws_head by exact Hws. rewrite H93.
    rewrite Hp; [reflexivity|].
    cbn [length] in Hfuel. rewrite length_app in Hfuel. cbn [length] in Hfuel. lia.
  - cbn [stringify wf_value] in *. destruct properties as [|kv properties]; [reflexivity|].
    change (fun kv => quote (fst kv) ++ 58 :: stringify (snd kv)) with member_text in *.
    cbn [app]. rewrite <- app_assoc. cbn [app parse_value].
    rewrite skip_ws_head by reflexivity.
    change (123 =? 123) with true. cbn match.
    pose proof (parse_members_join _ IH Hwf ltac:(done) fuel rest) as Hp.
    assert (Hhead : exists t,
               join_comma (List.map member_text (kv :: properties)) ++ 125 :: rest = 34 :: t).
    { destruct kv as [k v]. cbn [List.map].
      destruct (List.map member_text properties) as [|t ts]; cbn [join_comma];
        rewrite <- ?app_assoc, member_text_app; eexists; reflexivity. }
    destruct Hhead as (t & Ht). rewrite Ht in *. rewrite skip_ws_head by reflexivity.
    change (34 =? 125) with false. cbn match.
    rewrite Hp; [reflexivity|].
    cbn [length] in Hfuel. rewrite length_app in Hfuel. cbn [length] in Hfuel. lia.
Qed.

(** [JSON.parse(JSON.stringify(v))] is [v]. *)
Theorem parse_stringify (v : JSValue) :
  wf_value v = true -> parse (stringify v) = Normal v.
Proof.
  intros Hwf. unfold parse.
  pose proof (parse_value_stringify v Hwf (S (length (stringify v))) []
                ltac:(lia) eq_refl) as H.
  rewrite app_nil_r in H. by rewrite H.
Qed.

End JsonValues.

(** ** The codec *)
Section Codec.
Import Json Steganography.

Lemma wf_data_value (data : SteganographyData) :
  wf_data data = true -> wf_value (data_value data) = true.
Proof.
  unfold wf_data. rewrite andb_true_iff. intros [Hm Hs].
  cbn [data_value wf_value forallb fst snd]. rewrite Hm.
  change (wf_string (js "message")) with true.
  change (wf_string (js "clickSequence")) with true.
  cbn [andb]. rewrite andb_true_r.
  induction (clickSequence data) as [|p ps IH]; [reflexivity|].
  cbn [forallb List.map] in *. apply andb_true_iff in Hs as [Hp Hps].
  rewrite (IH Hps), andb_true_r.
  unfold wf_point in Hp. apply andb_true_iff in Hp as [Hxy Ho].
  apply andb_true_iff in Hxy as [Hx Hy].
  cbn [point_value wf_value forallb fst snd]. rewrite Hx, Hy, Ho. reflexivity.
Qed.

Lemma decodeMessage_scan (canvas : HTMLCanvasElement) :
  context2d canvas = true ->
  decodeMessage canvas = decoded (scan (lsb_stream (imageData canvas)) []).
Proof.
  intros Hctx. unfold decodeMessage, decodeMessage_try, decoded.
  rewrite Hctx. cbn [negb]. rewrite decode_loop_scan. fold (lsb_stream (imageData canvas)).
  destruct (scan _ _) as [|b bits]; [reflexivity|].
  destruct (binaryToString _) as [|c text]; [reflexivity|].
  by destruct (parse _).
Qed.

Lemma decoded_text (text : JSString) :
  latin1 text = true -> text <> [] ->
  decoded (stringToBinary text) =
    match parse text with Normal data => Some data | Throw _ => None end.
Proof.
  intros Hl Hne. unfold decoded.
  rewrite binaryToString_stringToBinary by exact Hl.
  pose proof (length_stringToBinary text Hl) as Hlen.
  destruct text as [|c text]; [done|].
  destruct (stringToBinary (c :: text)); [discriminate Hlen | reflexivity].
Qed.

(** A buffer whose red LSBs spell a text and then the terminator decodes
    to whatever [JSON.parse] makes of the text. *)
Lemma decodeMessage_embedded (canvas : HTMLCanvasElement) (text : JSString)
  (rest : list bool) :
  context2d canvas = true ->
  latin1 text = true -> text <> [] ->
  delimiter_free (stringToBinary text) = true ->
  lsb_stream (imageData canvas) = stringToBinary text ++ delimiter ++ rest ->
  decodeMessage canvas =
    match parse text with Normal data => Some data | Throw _ => None end.
Proof.
  intros Hctx Hl Hne Hfree Hstream.
  rewrite decodeMessage_scan, Hstream, scan_delimiter by done.
  by apply decoded_text.
Qed.

Lemma encodeMessage_resolved (canvas : HTMLCanvasElement) (data : SteganographyData) :
  context2d canvas = true -> blobAvailable canvas = true ->
  (length (payload_bits data ++ delimiter) * 4 <= length (imageData canvas))%nat ->
  encodeMessage canvas data =
    (putImageData canvas (encode_loop (payload_bits data ++ delimiter) 0 (imageData canvas)),
     Resolved (encode_loop (payload_bits data ++ delimiter) 0 (imageData canvas))).
Proof.
  intros Hctx Hblob Hcap. unfold encodeMessage. rewrite Hctx. cbn [negb].
  fold (payload_bits data).
  destruct (Nat.ltb_spec (length (imageData canvas))
              (length (payload_bits data ++ delimiter) * 4)) as [Hlt|_]; [lia|].
  cbn [putImageData blobAvailable]. by rewrite Hblob.
Qed.

Lemma encodeMessage_rejected (canvas : HTMLCanvasElement) (data : SteganographyData) :
  context2d canvas = true ->
  (length (imageData canvas) < length (payload_bits data ++ delimiter) * 4)%nat ->
  encodeMessage canvas data = (canvas, Rejected "Message too long for this image").
Proof.
  intros Hctx Hcap. unfold encodeMessage. rewrite Hctx. cbn [negb].
  fold (payload_bits data).
  by destruct (Nat.ltb_spec (length (imageData canvas))
                 (length (payload_bits data ++ delimiter) * 4)) as [_|Hge]; [|lia].
Qed.

End Codec.

(** ** Claims about the codec *)
Section CodecClaims.
Import Json Steganography Examples.

(** C10 (the code departs from the claim).  [stringToBinary] pads each
    character code to at least 8 bits but never cuts it down: the
    character U+20AC becomes 14 bits, and [binaryToString], which reads
    8 bits per character, returns U+0082 for them. *)
Theorem C10_wide_character_not_8_bits :
  stringToBinary [8364] =
    [true; false; false; false; false; false; true; false;
     true; false; true; true; false; false] /\
  binaryToString (stringToBinary [8364]) = [130] /\
  binaryToString (stringToBinary [8364]) <> [8364].
Proof. split; [reflexivity|]. split; [reflexivity|]. vm_compute. discriminate. Qed.

(** C4.  After a successful [encodeMessage], bit [i] of the embedded
    bit-string is the least significant bit of the red channel of pixel
    [i]; the other seven bits of that channel, the G, B and A channels of
    every pixel and all channels of the pixels from index [n] on are as
    they were. *)
Theorem C4_encode_frame (canvas canvas' : HTMLCanvasElement)
  (data : SteganographyData) (blob : Blob) :
  encodeMessage canvas data = (canvas', Resolved blob) ->
  let fullBinary := payload_bits data ++ delimiter in
  let old := imageData canvas in
  let new := imageData canvas' in
  length new = length old /\
  (forall i bit, fullBinary !! i = Some bit ->
     exists p, old !! (i * 4)%nat = Some p /\
               N.testbit (read new (i * 4)) 0 = bit /\
               forall n, 0 < n < 8 ->
                         N.testbit (read new (i * 4)) n = N.testbit p n) /\
  (forall i c, (1 <= c <= 3)%nat ->
     new !! (i * 4 + c)%nat = old !! (i * 4 + c)%nat) /\
  (forall i c, (length fullBinary <= i)%nat -> (c <= 3)%nat ->
     new !! (i * 4 + c)%nat = old !! (i * 4 + c)%nat).
Proof.
  unfold encodeMessage. fold (payload_bits data).
  destruct (context2d canvas); cbn [negb]; [|discriminate].
  destruct (Nat.ltb_spec (length (imageData canvas))
              (length (payload_bits data ++ delimiter) * 4)) as [|Hcap];
    [discriminate|].
  cbn [putImageData blobAvailable]. destruct (blobAvailable canvas); [|discriminate].
  intros H. apply pair_equal_spec in H as [Hcanvas _]. subst canvas'.
  cbv zeta. cbn [imageData putImageData].
  set (bits := payload_bits data ++ delimiter) in *.
  split; [apply encode_loop_length|]. split; [|split].
  - intros i bit Hi. pose proof (lookup_lt_Some _ _ _ Hi) as Hlt.
    destruct (lookup_lt_is_Some_2 (imageData canvas) (i * 4)%nat) as [p Hp]; [lia|].
    exists p. split; [exact Hp|].
    pose proof (encode_loop_written bits 0 (imageData canvas) i bit Hi) as Hw.
    cbn [Nat.add] in Hw. specialize (Hw ltac:(lia)).
    unfold read in Hw |- *. rewrite Hp in Hw. rewrite Hw. cbn [default].
    split; [apply lsb_written | intros n Hn; by apply upper_bits_kept].
  - intros i c Hc. apply encode_loop_other. intros k _. lia.
  - intros i c Hi Hc. apply encode_loop_other. intros k Hk. lia.
Qed.

Lemma C4_encode_frame_witness :
  let canvas' := fst (encodeMessage (white 1000) demo_data) in
  let new := imageData canvas' in
  length new = 4000%nat /\
  N.testbit (read new 4) 0 = true /\
  new !! 5%nat = Some 255.
Proof.
  pose proof (C4_encode_frame (white 1000) (fst (encodeMessage (white 1000) demo_data))
                demo_data (imageData (fst (encodeMessage (white 1000) demo_data)))
                ltac:(vm_compute; reflexivity)) as (Hlen & Hbit & Hchan & _).
  cbv zeta in *. split; [|split].
  - rewrite Hlen. vm_compute. reflexivity.
  - destruct (Hbit 1%nat true ltac:(vm_compute; reflexivity)) as (p & _ & Hlsb & _).
    exact Hlsb.
  - etrans; [exact (Hchan 1%nat 1%nat ltac:(lia)) | vm_compute; reflexivity].
Defined.

(** C2.  With [pixelCount] pixels, [encodeMessage] succeeds when the
    bit-string with its terminator has at most [pixelCount] bits, in
    particular exactly [pixelCount]; with one bit more or beyond it fails
    with the capacity error and the canvas is what it was. *)
Theorem C2_capacity_boundary (canvas : HTMLCanvasElement)
  (data : SteganographyData) (pixelCount : nat) :
  context2d canvas = true ->
  blobAvailable canvas = true ->
  length (imageData canvas) = (4 * pixelCount)%nat ->
  let n := length (payload_bits data ++ delimiter) in
  ((n <= pixelCount)%nat ->
     exists canvas' blob, encodeMessage canvas data = (canvas', Resolved blob)) /\
  ((pixelCount + 1 <= n)%nat ->
     encodeMessage canvas data = (canvas, Rejected "Message too long for this image")).
Proof.
  intros Hctx Hblob Hlen n. split; intros Hn.
  - eexists _, _. apply encodeMessage_resolved; [done..|]. fold n. lia.
  - apply encodeMessage_rejected; [done|]. fold n. lia.
Qed.

Lemma C2_capacity_boundary_witness :
  (exists canvas' blob, encodeMessage (white 992) demo_data = (canvas', Resolved blob)) /\
  encodeMessage (white 991) demo_data =
    (white 991, Rejected "Message too long for this image").
Proof.
  assert (Hn : length (payload_bits demo_data ++ delimiter) = 992%nat)
    by (vm_compute; reflexivity).
  assert (H992 : length (imageData (white 992)) = (4 * 992)%nat)
    by (vm_compute; reflexivity).
  assert (H991 : length (imageData (white 991)) = (4 * 991)%nat)
    by (vm_compute; reflexivity).
  pose proof (C2_capacity_boundary (white 992) demo_data 992 eq_refl eq_refl H992)
    as [Hok _].
  pose proof (C2_capacity_boundary (white 991) demo_data 991 eq_refl eq_refl H991)
    as [_ Hfail].
  cbv zeta in Hok, Hfail. rewrite Hn in Hok, Hfail.
  split; [apply Hok | apply Hfail]; apply Nat.le_refl.
Defined.

End CodecClaims.

(** ** Claims about decoding *)
Section DecodeClaims.
Import Json Steganography Examples.

(** C1, as stated, fails: the payload whose message is U+00FF U+00FE is
    embedded without error in an image of 1100 pixels, which holds its
    992 bits and the terminator, yet decoding the result yields [null]:
    the scan stops at the message, whose bits are the terminator. *)
Lemma C1_counterexample :
  wf_data marker_data = true /\
  length (imageData (white 1100)) = (4 * 1100)%nat /\
  (length (payload_bits marker_data) + 16 <= 1100)%nat /\
  snd (encodeMessage (white 1100) marker_data)
    = Resolved (imageData (fst (encodeMessage (white 1100) marker_data))) /\
  decodeMessage (fst (encodeMessage (white 1100) marker_data)) = None /\
  decodeMessage (fst (encodeMessage (white 1100) marker_data))
    <> Some (data_value marker_data).
Proof.
  assert (Hnone : decodeMessage (fst (encodeMessage (white 1100) marker_data)) = None)
    by (vm_compute; reflexivity).
  split; [vm_compute; reflexivity|]. split; [vm_compute; reflexivity|].
  split; [vm_compute; lia|]. split; [vm_compute; reflexivity|].
  split; [exact Hnone|]. rewrite Hnone. discriminate.
Qed.

(** C1, amended.  For a payload whose serialized text consists of
    characters below 256 and whose bit-string has no prefix that ends
    with the terminator, and an image of at least as many pixels as the
    bit-string has bits plus 16, [encodeMessage] succeeds and
    [decodeMessage], on that canvas as on any canvas that shows the
    produced image, returns exactly the payload. *)
Theorem C1_round_trip (canvas : HTMLCanvasElement) (data : SteganographyData)
  (pixelCount : nat) :
  wf_data data = true ->
  latin1 (stringify (data_value data)) = true ->
  delimiter_free (payload_bits data) = true ->
  context2d canvas = true ->
  blobAvailable canvas = true ->
  length (imageData canvas) = (4 * pixelCount)%nat ->
  (length (payload_bits data) + 16 <= pixelCount)%nat ->
  exists canvas' blob,
    encodeMessage canvas data = (canvas', Resolved blob) /\
    decodeMessage canvas' = Some (data_value data) /\
    forall viewer, context2d viewer = true -> imageData viewer = blob ->
                   decodeMessage viewer = Some (data_value data).
Proof.
  intros Hwf Hlatin Hfree Hctx Hblob Hlen Hcap.
  assert (Hbits : (length (payload_bits data ++ delimiter) * 4
                   <= length (imageData canvas))%nat).
  { rewrite length_app, Hlen. change (length delimiter) with 16%nat. lia. }
  eexists _, _. split; [apply encodeMessage_resolved; assumption|].
  assert (Hdec : forall viewer, context2d viewer = true ->
            imageData viewer = encode_loop (payload_bits data ++ delimiter) 0 (imageData canvas) ->
            decodeMessage viewer = Some (data_value data)).
  { intros viewer Hv Hpixels.
    assert (Hne : stringify (data_value data) <> []).
    { intros Hnil. apply (f_equal length) in Hnil.
      cbn [data_value stringify length] in Hnil. discriminate Hnil. }
    assert (Hstream : lsb_stream (imageData viewer) =
              stringToBinary (stringify (data_value data)) ++ delimiter ++
              drop (length (payload_bits data ++ delimiter))
                   (lsb_stream (imageData canvas))).
    { rewrite Hpixels, lsb_stream_encoded by exact Hbits.
      unfold payload_bits. apply eq_sym, app_assoc. }
    rewrite (decodeMessage_embedded viewer _ _ Hv Hlatin Hne Hfree Hstream).
    rewrite parse_stringify; [reflexivity|]. apply wf_data_value, Hwf. }
  split; [apply Hdec; [exact Hctx | reflexivity] | exact Hdec].
Qed.

Lemma C1_round_trip_witness :
  exists canvas' blob,
    encodeMessage (white 992) demo_data = (canvas', Resolved blob) /\
    decodeMessage canvas' = Some (data_value demo_data) /\
    forall viewer, context2d viewer = true -> imageData viewer = blob ->
                   decodeMessage viewer = Some (data_value demo_data).
Proof.
  apply (C1_round_trip (white 992) demo_data 992);
    vm_compute; (reflexivity || lia).
Defined.

(** C3, as stated, fails: the 280 red LSBs of the image [unterminated]
    spell a payload text and contain no terminator, and [decodeMessage]
    returns that payload. *)
Lemma C3_counterexample :
  delimiter_free (lsb_stream (imageData unterminated)) = true /\
  decodeMessage unterminated =
    Some (data_value {| message := js "hi"; clickSequence := [] |}).
Proof. split; vm_compute; reflexivity. Qed.

(** C3, amended.  When no prefix of the red-channel LSB stream ends with
    the terminator and the whole stream, read eight bits per character,
    is not a JSON text, [decodeMessage] returns [null]; and whatever the
    [try] block throws, on any input, becomes [null]. *)
Theorem C3_decode_without_terminator (canvas : HTMLCanvasElement) (error : string) :
  delimiter_free (lsb_stream (imageData canvas)) = true ->
  parse (binaryToString (lsb_stream (imageData canvas))) = Throw error ->
  decodeMessage canvas = None /\
  forall input thrown,
    decodeMessage_try input = Throw thrown -> decodeMessage input = None.
Proof.
  intros Hfree Hparse. split.
  - destruct (context2d canvas) eqn:Hctx.
    + rewrite decodeMessage_scan, scan_delimiter_free by done.
      unfold decoded. destruct (lsb_stream _); [reflexivity|].
      destruct (binaryToString _); [reflexivity|]. by rewrite Hparse.
    + unfold decodeMessage, decodeMessage_try. by rewrite Hctx.
  - intros input thrown H. unfold decodeMessage. by rewrite H.
Qed.

Lemma C3_decode_without_terminator_witness :
  decodeMessage (white 100) = None.
Proof.
  apply (C3_decode_without_terminator (white 100) "SyntaxError");
    vm_compute; reflexivity.
Defined.

(** C9.  [decodeMessage] hands on what [JSON.parse] returns, whatever
    its shape; the image [message_only], whose red LSBs spell a JSON
    object without [clickSequence] and then the terminator, decodes to a
    value that is not [null] and has no click sequence. *)
Theorem C9_no_shape_validation :
  (forall canvas text rest v,
     context2d canvas = true -> latin1 text = true -> text <> [] ->
     delimiter_free (stringToBinary text) = true ->
     lsb_stream (imageData canvas) = stringToBinary text ++ delimiter ++ rest ->
     parse text = Normal v ->
     decodeMessage canvas = Some v) /\
  lsb_stream (imageData message_only) = stringToBinary message_only_text ++ delimiter /\
  exists v, decodeMessage message_only = Some v /\
            get v (js "message") = Some (JString (js "hi")) /\
            get v (js "clickSequence") = None.
Proof.
  split; [|split].
  - intros canvas text rest v Hctx Hl Hne Hfree Hstream Hparse.
    rewrite (decodeMessage_embedded canvas text rest) by done. by rewrite Hparse.
  - vm_compute. reflexivity.
  - eexists. split; [vm_compute; reflexivity|]. split; vm_compute; reflexivity.
Qed.

Lemma C9_no_shape_validation_witness :
  decodeMessage message_only = Some (JObject [(js "message", JString (js "hi"))]).
Proof.
  apply (proj1 C9_no_shape_validation message_only message_only_text []);
    try (vm_compute; reflexivity).
  discriminate.
Defined.

End DecodeClaims.

(** ** The click matcher *)
Section Matcher.
Import Steganography ImageCanvas.
Local Open Scope R_scope.

Lemma isClickNearPoint_true (clickX clickY targetX targetY tolerance : R) :
  isClickNearPoint clickX clickY targetX targetY tolerance = true <->
  distance clickX clickY targetX targetY <= tolerance.
Proof.
  unfold isClickNearPoint. destruct (Rle_dec _ _); split; (done || lra).
Qed.

Lemma isClickNearPoint_false (clickX clickY targetX targetY tolerance : R) :
  isClickNearPoint clickX clickY targetX targetY tolerance = false <->
  tolerance < distance clickX clickY targetX targetY.
Proof.
  unfold isClickNearPoint. destruct (Rle_dec _ _); split; (done || lra).
Qed.

(** The test without the square root. *)
Lemma isClickNearPoint_squares (clickX clickY targetX targetY tolerance : R) :
  0 <= tolerance ->
  (isClickNearPoint clickX clickY targetX targetY tolerance = true <->
   (clickX - targetX) ^ 2 + (clickY - targetY) ^ 2 <= tolerance ^ 2).
Proof.
  intros Htol. rewrite isClickNearPoint_true. unfold distance, pow2.
  set (s := (clickX - targetX) ^ 2 + (clickY - targetY) ^ 2).
  assert (Hs : 0 <= s) by (apply Rplus_le_le_0_compat; apply pow2_ge_0).
  rewrite <- (sqrt_pow2 tolerance Htol) at 1. split.
  - intros H. apply sqrt_le_0 in H; [exact H | exact Hs | apply pow2_ge_0].
  - intros H. by apply sqrt_le_1_alt.
Qed.

Section Step.
Variable p : props.
Variable st : state.
Variables x y : R.
Variable target : ClickPoint R.
Hypothesis Htarget : clickSequence p !! currentStep st = Some target.

Let attempt : ClickPoint R :=
  {| Steganography.x := x / width p;
     Steganography.y := y / height p;
     order := INR (currentStep st) |}.
Let targetPos := denormalizeClickPoint target (width p) (height p).

Lemma step_in_range : (currentStep st < length (clickSequence p))%nat.
Proof using Htarget. by apply lookup_lt_Some in Htarget. Qed.

Lemma handleVerificationClick_near :
  isClickNearPoint x y (fst targetPos) (snd targetPos) 25 = true ->
  handleVerificationClick p st x y =
    ({| currentStep := currentStep st + 1;
        verificationAttempts := verificationAttempts st ++ [attempt] |},
     if (length (clickSequence p) <=? currentStep st + 1)%nat
     then Some {| handler := NotifySuccess; delay := 500 |}
     else None).
Proof using Htarget.
  intros Hnear. unfold handleVerificationClick.
  pose proof step_in_range as Hlt.
  destruct (Nat.leb_spec (length (clickSequence p)) (currentStep st)); [lia|].
  rewrite Htarget. fold targetPos. rewrite Hnear. fold attempt.
  by destruct (_ <=? _)%nat.
Qed.

Lemma handleVerificationClick_far :
  isClickNearPoint x y (fst targetPos) (snd targetPos) 25 = false ->
  handleVerificationClick p st x y =
    ({| currentStep := currentStep st;
        verificationAttempts := verificationAttempts st ++ [attempt] |},
     Some {| handler := ResetAndNotifyFailure; delay := 1000 |}).
Proof using Htarget.
  intros Hfar. unfold handleVerificationClick.
  pose proof step_in_range as Hlt.
  destruct (Nat.leb_spec (length (clickSequence p)) (currentStep st)); [lia|].
  rewrite Htarget. fold targetPos. by rewrite Hfar.
Qed.

Lemma submitClick_near :
  isClickNearPoint x y (fst targetPos) (snd targetPos) 25 = true ->
  submitClick p st x y =
    ({| currentStep := currentStep st + 1;
        verificationAttempts := verificationAttempts st ++ [attempt] |},
     if (length (clickSequence p) <=? currentStep st + 1)%nat
     then Some Verified else None).
Proof using Htarget.
  intros Hnear. unfold submitClick.
  rewrite handleVerificationClick_near by exact Hnear.
  by destruct (_ <=? _)%nat.
Qed.

Lemma submitClick_far :
  isClickNearPoint x y (fst targetPos) (snd targetPos) 25 = false ->
  submitClick p st x y = (initial, Some Failed).
Proof using Htarget.
  intros Hfar. unfold submitClick.
  by rewrite handleVerificationClick_far by exact Hfar.
Qed.

End Step.

Lemma submitClick_done (p : props) (st : state) (x y : R) :
  (length (clickSequence p) <= currentStep st)%nat ->
  submitClick p st x y = (st, None).
Proof.
  intros H. unfold submitClick, handleVerificationClick.
  by destruct (Nat.leb_spec (length (clickSequence p)) (currentStep st)); [|lia].
Qed.

End Matcher.

(** ** Claims about the matcher *)
Section MatcherClaims.
Import Steganography ImageCanvas MatcherExamples.
Local Open Scope R_scope.




Lemma near_from_squares (x y tx ty : R) :
  (x - tx) ^ 2 + (y - ty) ^ 2 <= 625 ->
  isClickNearPoint x y tx ty 25 = true.
Proof.
  intros H. apply isClickNearPoint_squares; lra.
Qed.

Lemma far_from_squares (x y tx ty : R) :
  625 < (x - tx) ^ 2 + (y - ty) ^ 2 ->
  isClickNearPoint x y tx ty 25 = false.
Proof.
  intros H. apply not_true_is_false. rewrite isClickNearPoint_squares by lra. lra.
Qed.


End MatcherClaims.

(** ** Sessions of the matcher *)
Section Sessions.
Import Steganography ImageCanvas MatcherExamples.

Lemma lookup_map {A B} (f : A -> B) (l : list A) (i : nat) :
  List.map f l !! i = f <$> l !! i.
Proof.
  revert i. induction l as [|a l IH]; intros [|i]; try reflexivity. apply IH.
Qed.

Lemma submitClick_cases (p : props) (st : state) (x y : R) :
  (length (clickSequence p) <= currentStep st)%nat /\
    submitClick p st x y = (st, None)
  \/ (exists t, clickSequence p !! currentStep st = Some t /\
                near_target p (x, y) t = false /\
                submitClick p st x y = (initial, Some Failed))
  \/ (exists t st', clickSequence p !! currentStep st = Some t /\
                    near_target p (x, y) t = true /\
                    currentStep st' = (currentStep st + 1)%nat /\
                    submitClick p st x y =
                      (st', if (length (clickSequence p) <=? currentStep st + 1)%nat
                            then Some Verified else None)).
Proof.
  destruct (Nat.le_gt_cases (length (clickSequence p)) (currentStep st)) as [Hge|Hlt].
  - left. split; [exact Hge | by apply submitClick_done].
  - right. destruct (lookup_lt_is_Some_2 _ _ Hlt) as [t Ht].
    destruct (near_target p (x, y) t) eqn:Hnear.
    + right. eexists t, _. split; [exact Ht|]. split; [exact Hnear|].
      split; [|exact (submitClick_near p st x y t Ht Hnear)]. reflexivity.
    + left. exists t. split; [exact Ht|]. split; [exact Hnear|].
      exact (submitClick_far p st x y t Ht Hnear).
Qed.

(** Too few clicks left to reach the end of the sequence. *)
Lemma submitAll_short (p : props) (clicks : list (R * R)) (st : state) :
  (currentStep st + length clicks < length (clickSequence p))%nat ->
  snd (submitAll p st clicks) = false.
Proof.
  revert st. induction clicks as [|[x y] clicks IH]; intros st Hlen; [reflexivity|].
  cbn [length] in Hlen. cbn [submitAll].
  destruct (submitClick_cases p st x y)
    as [[Hge ->]|[(t & _ & _ & ->)|(t & st' & _ & _ & Hstep & ->)]].
  - lia.
  - apply IH. cbn. lia.
  - destruct (Nat.leb_spec (length (clickSequence p)) (currentStep st + 1)); [lia|].
    apply IH. lia.
Qed.

(** A session in which some click misses the point it is compared with
    cannot reach the end of the sequence with the clicks that remain. *)
Lemma submitAll_miss (p : props) (clicks : list (R * R)) (st : state) :
  (currentStep st + length clicks <= length (clickSequence p))%nat ->
  (exists j click t,
      clicks !! j = Some click /\
      clickSequence p !! (currentStep st + j)%nat = Some t /\
      near_target p click t = false) ->
  snd (submitAll p st clicks) = false.
Proof.
  revert st. induction clicks as [|[x y] clicks IH]; intros st Hlen (j & click & t & Hj & Ht & Hfar).
  - discriminate Hj.
  - cbn [length] in Hlen. cbn [submitAll].
    destruct (submitClick_cases p st x y)
      as [[Hge ->]|[(t' & _ & _ & ->)|(t' & st' & Ht' & Hnear & Hstep & ->)]].
    + lia.
    + apply submitAll_short. cbn. lia.
    + destruct j as [|j].
      * injection Hj as <-. rewrite Nat.add_0_r in Ht. congruence.
      * cbn in Hj. pose proof (lookup_lt_Some _ _ _ Hj) as Hjlt.
        destruct (Nat.leb_spec (length (clickSequence p)) (currentStep st + 1)); [lia|].
        apply IH; [lia|]. exists j, click, t. split; [exact Hj|]. split; [|exact Hfar].
        rewrite Hstep. rewrite <- Ht. f_equal. lia.
Qed.

End Sessions.

Section OrderClaim.
Import Steganography ImageCanvas MatcherExamples.
Local Open Scope R_scope.

(** C7, as stated, fails: the three points of [close_ends] are distinct,
    but the first and the last are 6 pixels apart, so every click of the
    reversed sequence lands within the tolerance of the point it is
    compared with, and the session is Verified. *)
Lemma C7_counterexample :
  length (clickSequence close_ends) = 3%nat /\
  (at_point (1 / 2) (1 / 2) 0 <> at_point (1 / 4) (1 / 4) 1 /\
   at_point (1 / 2) (1 / 2) 0 <> at_point (51 / 100) (1 / 2) 2 /\
   at_point (1 / 4) (1 / 4) 1 <> at_point (51 / 100) (1 / 2) 2) /\
  snd (submitAll close_ends initial (rev (referenceClicks close_ends))) = true.
Proof.
  split; [reflexivity|]. split.
  - repeat split; intros H; injection H; intros; lra.
  - cbn [referenceClicks close_ends clickSequence width height List.map rev app
           denormalizeClickPoint at_point Steganography.x Steganography.y submitAll].
    rewrite (submitClick_near close_ends initial _ _ (at_point (1 / 2) (1 / 2) 0) eq_refl)
      by (apply near_from_squares; cbn; lra).
    cbn [currentStep initial Nat.add length clickSequence close_ends Nat.leb].
    match goal with
    | |- context [submitClick _ ?st _ _] =>
        rewrite (submitClick_near close_ends st _ _ (at_point (1 / 4) (1 / 4) 1) eq_refl)
          by (apply near_from_squares; cbn; lra)
    end.
    cbn [currentStep Nat.add length clickSequence close_ends Nat.leb].
    match goal with
    | |- context [submitClick _ ?st _ _] =>
        rewrite (submitClick_near close_ends st _ _ (at_point (51 / 100) (1 / 2) 2) eq_refl)
          by (apply near_from_squares; cbn; lra)
    end.
    reflexivity.
Qed.

(** C7, amended.  If some click of the reversed sequence is farther than
    the tolerance from the reference point at the same index (for three
    or four points: if the first and the last point, or for four the two
    middle points, are more than the tolerance apart), submitting the
    reference points in reverse order never reaches Verified. *)
Theorem C7_reverse_order (p : props) (i : nat) (click target : R * R) :
  rev (referenceClicks p) !! i = Some click ->
  referenceClicks p !! i = Some target ->
  isClickNearPoint (fst click) (snd click) (fst target) (snd target) 25 = false ->
  snd (submitAll p initial (rev (referenceClicks p))) = false.
Proof.
  intros Hclick Htarget Hfar. unfold referenceClicks in Htarget.
  rewrite lookup_map in Htarget.
  destruct (clickSequence p !! i) as [t|] eqn:Ht; [|discriminate Htarget].
  injection Htarget as <-.
  apply submitAll_miss.
  - rewrite length_rev. unfold referenceClicks. rewrite length_map. cbn. lia.
  - exists i, click, t. split; [exact Hclick|]. split; [exact Ht | exact Hfar].
Qed.

Lemma C7_reverse_order_witness :
  snd (submitAll far_apart initial (rev (referenceClicks far_apart))) = false.
Proof.
  apply (C7_reverse_order far_apart 0
           (9 / 10 * 600, 9 / 10 * 400) (1 / 10 * 600, 1 / 10 * 400));
    [reflexivity | reflexivity |].
  apply far_from_squares. cbn. lra.
Defined.

End OrderClaim.

(** ** The retry policy *)
Section Lockout.
Import Json Steganography Examples DecodeMode.





End Lockout.

(** * Further properties of the code *)

(** ** Binary strings, continued *)
Section BinaryWidth.
Import Json Steganography.

Lemma length_pos_toString2 (p : positive) (acc : list bool) :
  length (pos_toString2 p acc) = (Pos.size_nat p + length acc)%nat.
Proof.
  revert acc. induction p as [p IH|p IH|]; intros acc; cbn [pos_toString2 Pos.size_nat];
    rewrite ?IH; cbn [length]; lia.
Qed.

Lemma length_padStart (n : nat) (s : list bool) :
  length (padStart n s) = Nat.max n (length s).
Proof. unfold padStart. rewrite length_app, length_replicate. lia. Qed.

Lemma size_nat_below (p : positive) (n : nat) :
  (Npos p < 2 ^ N.of_nat n)%N -> (Pos.size_nat p <= n)%nat.
Proof.
  revert n. induction p as [p IH|p IH|]; intros n Hp; cbn [Pos.size_nat].
  - destruct n as [|n]; [cbn in Hp; lia|].
    apply le_n_S, IH. rewrite Nat2N.inj_succ, N.pow_succ_r' in Hp. lia.
  - destruct n as [|n]; [cbn in Hp; lia|].
    apply le_n_S, IH. rewrite Nat2N.inj_succ, N.pow_succ_r' in Hp. lia.
  - destruct n as [|n]; [cbn in Hp; lia | lia].
Qed.

Lemma length_char_bits (c : N) :
  (8 <= length (padStart 8 (toString2 c)))%nat /\
  (c < 65536 -> (length (padStart 8 (toString2 c)) <= 16)%nat).
Proof.
  rewrite length_padStart. split; [lia|]. intros Hc.
  destruct c as [|p]; [cbn; lia|]. cbn [toString2].
  rewrite length_pos_toString2. cbn [length].
  pose proof (size_nat_below p 16 Hc). lia.
Qed.

Lemma length_stringToBinary_ge (s : JSString) :
  (8 * length s <= length (stringToBinary s))%nat.
Proof.
  induction s as [|c s IH]; [reflexivity|].
  unfold stringToBinary in *. cbn [List.map concat length]. rewrite length_app.
  pose proof (proj1 (length_char_bits c)). lia.
Qed.

Lemma length_stringToBinary_le (s : JSString) :
  wf_string s = true -> (length (stringToBinary s) <= 16 * length s)%nat.
Proof.
  induction s as [|c s IH]; intros Hwf; [reflexivity|].
  cbn [wf_string forallb] in Hwf. apply andb_true_iff in Hwf as [Hc Hs].
  apply N.ltb_lt in Hc.
  unfold stringToBinary in *. cbn [List.map concat length]. rewrite length_app.
  pose proof (proj2 (length_char_bits c) Hc). specialize (IH Hs). lia.
Qed.

Lemma parseInt2_app (l : list bool) (b : bool) :
  parseInt2 (l ++ [b]) = 2 * parseInt2 l + N.b2n b.
Proof. unfold parseInt2. by rewrite fold_left_app. Qed.

Lemma parseInt2_bound (l : list bool) : parseInt2 l < 2 ^ N.of_nat (length l).
Proof.
  induction l as [|b l IH] using rev_ind; [reflexivity|].
  rewrite parseInt2_app, length_app. cbn [length].
  rewrite Nat.add_1_r, Nat2N.inj_succ, N.pow_succ_r'. destruct b; cbn [N.b2n]; lia.
Qed.

Lemma match_all_8_shape (binary : list bool) :
  length (match_all_8 binary) = (length binary / 8)%nat /\
  Forall (fun byte => length byte = 8%nat) (match_all_8 binary).
Proof.
  remember (length binary) as n eqn:Hn. revert binary Hn.
  induction n as [n IH] using lt_wf_ind. intros binary Hn.
  destruct binary as [|b0 [|b1 [|b2 [|b3 [|b4 [|b5 [|b6 [|b7 rest]]]]]]]];
    try (subst n; split; [reflexivity | constructor]).
  cbn [match_all_8]. cbn [length] in Hn.
  destruct (IH (length rest) ltac:(lia) rest eq_refl) as [Hlen Hall].
  split.
  - cbn [length]. rewrite Hlen. subst n.
    replace (S (S (S (S (S (S (S (S (length rest)))))))))
      with (1 * 8 + length rest)%nat by lia.
    rewrite Nat.div_add_l by lia. lia.
  - constructor; [reflexivity | exact Hall].
Qed.

Lemma match_all_8_tail (bytes : list (list bool)) (tail : list bool) :
  Forall (fun byte => length byte = 8%nat) bytes ->
  (length tail < 8)%nat ->
  match_all_8 (concat bytes ++ tail) = bytes.
Proof.
  intros Hall Htail. induction Hall as [|byte bytes Hbyte _ IH].
  - cbn [concat app].
    by do 8 (destruct tail as [|? tail]; [reflexivity|]); cbn [length] in Htail; lia.
  - cbn [concat]. rewrite <- app_assoc, match_all_8_app by exact Hbyte. by rewrite IH.
Qed.

End BinaryWidth.

Section BinaryProperties.
Import Json Steganography Examples.

Lemma map_parseInt2_char_bits (s : JSString) :
  latin1 s = true ->
  List.map (fun byte => parseInt2 byte)
    (List.map (fun c => padStart 8 (toString2 c)) s) = s.
Proof.
  intros Hs%latin1_Forall. induction Hs as [|c s Hc _ IH]; [reflexivity|].
  cbn [List.map]. f_equal; [apply char_bits_below_256, Hc | exact IH].
Qed.

Lemma char_bits_all_8 (s : JSString) :
  latin1 s = true ->
  Forall (fun byte => length byte = 8%nat)
    (List.map (fun c => padStart 8 (toString2 c)) s).
Proof.
  intros Hs%latin1_Forall. induction Hs as [|c s Hc _ IH]; constructor.
  - apply char_bits_below_256, Hc.
  - exact IH.
Qed.

(** X1.  A text whose characters are all below 256 is written with
    exactly eight bits per character, and [binaryToString] reads it back
    unchanged, also when up to seven stray bits follow it. *)
Theorem X1_latin1_text_round_trip (s : JSString) (tail : list bool) :
  latin1 s = true ->
  (length tail < 8)%nat ->
  length (stringToBinary s) = (8 * length s)%nat /\
  binaryToString (stringToBinary s ++ tail) = s.
Proof.
  intros Hs Htail. split; [by apply length_stringToBinary|].
  unfold binaryToString, match_8, stringToBinary.
  rewrite match_all_8_tail by (by apply char_bits_all_8 || exact Htail).
  destruct s as [|c s]; [reflexivity|].
  cbn [List.map]. f_equal.
  - apply andb_true_iff in Hs as [Hc _]. apply char_bits_below_256. by apply N.ltb_lt.
  - apply map_parseInt2_char_bits. by apply andb_true_iff in Hs as [_ Hs].
Qed.

Lemma X1_latin1_text_round_trip_witness :
  binaryToString (stringToBinary (js "hi") ++ [true; false; true]) = js "hi".
Proof.
  apply (X1_latin1_text_round_trip (js "hi") [true; false; true]).
  - reflexivity.
  - cbn. lia.
Defined.

(** X2.  [stringToBinary] writes at least 8 bits for every character, and
    at most 16 for a UTF-16 code unit: the bit-string of a text of [n]
    characters has between [8 * n] and [16 * n] bits. *)
Theorem X2_bits_per_character (s : JSString) :
  wf_string s = true ->
  (8 * length s <= length (stringToBinary s) <= 16 * length s)%nat.
Proof.
  intros Hwf. split; [apply length_stringToBinary_ge | by apply length_stringToBinary_le].
Qed.

Lemma X2_bits_per_character_witness :
  (8 * 2 <= length (stringToBinary [104%N; 8364%N]) <= 16 * 2)%nat.
Proof. apply (X2_bits_per_character [104; 8364]). reflexivity. Defined.

(** X3.  Whatever the bits, [binaryToString] returns one character for
    every complete group of eight, dropping what is left over, and every
    character it returns is below 256. *)
Theorem X3_binaryToString_shape (binary : list bool) :
  length (binaryToString binary) = (length binary / 8)%nat /\
  Forall (fun c => c < 256) (binaryToString binary).
Proof.
  destruct (match_all_8_shape binary) as [Hlen Hall].
  unfold binaryToString, match_8.
  destruct (match_all_8 binary) as [|byte bytes] eqn:Hm.
  - split; [exact Hlen | constructor].
  - rewrite length_map. split; [exact Hlen|].
    apply Forall_forall. intros c Hc. apply list_elem_of_In, in_map_iff in Hc as (b & <- & Hb).
    rewrite Forall_forall in Hall. specialize (Hall b (proj2 (list_elem_of_In _ _) Hb)).
    pose proof (parseInt2_bound b) as Hbound. rewrite Hall in Hbound. exact Hbound.
Qed.

End BinaryProperties.

(** ** The embedding loop, continued *)
Section EmbeddingProperties.
Import Json Steganography Examples.

(** What the loop stores for bit [b] over the byte [p]. *)
Lemma store_idempotent (p : N) (b : bool) :
  N.lor (N.land (N.lor (N.land p 254) (N.b2n b)) 254) (N.b2n b)
  = N.lor (N.land p 254) (N.b2n b).
Proof.
  apply N.bits_inj. intros n.
  rewrite !N.lor_spec, !N.land_spec, !N.lor_spec, !N.land_spec.
  destruct (N.testbit p n), (N.testbit 254 n), (N.testbit (N.b2n b) n); reflexivity.
Qed.

Lemma store_byte (p : N) (b : bool) :
  p < 256 ->
  N.lor (N.land p 254) (N.b2n b) < 256 /\
  (N.lor (N.land p 254) (N.b2n b) = p \/
   N.lor (N.land p 254) (N.b2n b) = p + 1 \/
   p = N.lor (N.land p 254) (N.b2n b) + 1).
Proof.
  intros Hp.
  pose (P := fun p =>
    forallb (fun b =>
      let q := N.lor (N.land p 254) (N.b2n b) in
      (q <? 256) && ((q =? p) || (q =? p + 1) || (p =? q + 1))) [true; false]).
  assert (HP : P p = true).
  { apply (N_forall_below P 256); [vm_compute; reflexivity | exact Hp]. }
  unfold P in HP. cbn [forallb] in HP.
  apply andb_true_iff in HP as [Ht HP]. apply andb_true_iff in HP as [Hf _].
  assert (H : (N.lor (N.land p 254) (N.b2n b) <? 256)
              && ((N.lor (N.land p 254) (N.b2n b) =? p)
                  || (N.lor (N.land p 254) (N.b2n b) =? p + 1)
                  || (p =? N.lor (N.land p 254) (N.b2n b) + 1)) = true)
    by (destruct b; assumption).
  apply andb_true_iff in H as [H1 H2]. apply N.ltb_lt in H1.
  rewrite !orb_true_iff, !N.eqb_eq in H2. split; [exact H1 | tauto].
Qed.

(** Every entry after the loop: the red channel of a pixel that has a bit
    is stored over, everything else is kept. *)
Lemma encode_loop_lookup (bits : list bool) (pixels : list N) (j : nat) :
  (exists i b, j = (i * 4)%nat /\ bits !! i = Some b /\
               encode_loop bits 0 pixels !! j =
                 (fun p => N.lor (N.land p 254) (N.b2n b)) <$> pixels !! j)
  \/ ((forall i, (i < length bits)%nat -> j <> (i * 4)%nat) /\
      encode_loop bits 0 pixels !! j = pixels !! j).
Proof.
  destruct (Nat.eq_dec (j mod 4)%nat 0%nat) as [Hmod|Hmod].
  - assert (Hj : j = (j / 4 * 4)%nat).
    { pose proof (Nat.div_mod_eq j 4). lia. }
    destruct (bits !! (j / 4)%nat) as [b|] eqn:Hb.
    + left. exists (j / 4)%nat, b. split; [exact Hj|]. split; [exact Hb|].
      destruct (Nat.lt_ge_cases j (length pixels)) as [Hlt|Hge].
      * pose proof (encode_loop_written bits 0 pixels (j / 4) b Hb) as Hw.
        cbn [Nat.add] in Hw. rewrite <- Hj in Hw. rewrite Hw by exact Hlt.
        unfold read. destruct (lookup_lt_is_Some_2 pixels j Hlt) as [p ->]. reflexivity.
      * rewrite !lookup_ge_None_2; [reflexivity | exact Hge |].
        by rewrite encode_loop_length.
    + right. apply lookup_ge_None in Hb.
      assert (Hne : forall i, (i < length bits)%nat -> j <> (i * 4)%nat) by (intros i Hi; lia).
      split; [exact Hne|]. apply encode_loop_other. intros k Hk. cbn [Nat.add]. by apply Hne.
  - right.
    assert (Hne : forall i, (i < length bits)%nat -> j <> (i * 4)%nat).
    { intros i _ ->. apply Hmod. apply Nat.Div0.mod_mul. }
    split; [exact Hne|]. apply encode_loop_other. intros k Hk. cbn [Nat.add]. by apply Hne.
Qed.

Lemma encode_loop_idempotent (bits : list bool) (pixels : list N) :
  encode_loop bits 0 (encode_loop bits 0 pixels) = encode_loop bits 0 pixels.
Proof.
  apply list_eq. intros j.
  destruct (encode_loop_lookup bits (encode_loop bits 0 pixels) j)
    as [(i & b & Hj & Hb & ->)|[Hne ->]]; [|reflexivity].
  destruct (encode_loop_lookup bits pixels j) as [(i' & b' & Hj' & Hb' & ->)|[Hne _]].
  - assert (i' = i) by lia. subst i'. rewrite Hb in Hb'. injection Hb' as <-.
    destruct (pixels !! j) as [p|]; [|reflexivity]. cbn. by rewrite store_idempotent.
  - exfalso. apply (Hne i); [by eapply lookup_lt_Some | exact Hj].
Qed.

(** A resolved call, taken apart. *)
Lemma encodeMessage_resolved_inv (canvas canvas' : HTMLCanvasElement)
  (data : SteganographyData) (blob : Blob) :
  encodeMessage canvas data = (canvas', Resolved blob) ->
  context2d canvas = true /\ blobAvailable canvas = true /\
  (length (payload_bits data ++ delimiter) * 4 <= length (imageData canvas))%nat /\
  canvas' = putImageData canvas
              (encode_loop (payload_bits data ++ delimiter) 0 (imageData canvas)) /\
  blob = encode_loop (payload_bits data ++ delimiter) 0 (imageData canvas).
Proof.
  unfold encodeMessage. fold (payload_bits data).
  destruct (context2d canvas); cbn [negb]; [|discriminate].
  destruct (Nat.ltb_spec (length (imageData canvas))
              (length (payload_bits data ++ delimiter) * 4)) as [|Hcap];
    [discriminate|].
  cbn [putImageData blobAvailable]. destruct (blobAvailable canvas); [|discriminate].
  intros H. apply pair_equal_spec in H as [Hcanvas Hblob].
  repeat split; [exact Hcap | by symmetry | congruence].
Qed.

(** X4.  Encoding is idempotent: embedding the same payload once more
    into the canvas a successful call has produced changes nothing and
    delivers the same image. *)
Theorem X4_encode_idempotent (canvas canvas' : HTMLCanvasElement)
  (data : SteganographyData) (blob : Blob) :
  encodeMessage canvas data = (canvas', Resolved blob) ->
  encodeMessage canvas' data = (canvas', Resolved blob).
Proof.
  intros H. apply encodeMessage_resolved_inv in H as (Hctx & Hblob & Hcap & -> & ->).
  rewrite encodeMessage_resolved.
  - cbn [imageData putImageData context2d blobAvailable].
    by rewrite encode_loop_idempotent.
  - exact Hctx.
  - exact Hblob.
  - cbn [imageData putImageData]. by rewrite encode_loop_length.
Qed.

Lemma X4_encode_idempotent_witness :
  encodeMessage encoded_demo demo_data = (encoded_demo, Resolved (imageData encoded_demo)).
Proof.
  apply (X4_encode_idempotent (white 992)). vm_compute. reflexivity.
Defined.

(** X5.  A successful encoding keeps a buffer of bytes a buffer of bytes
    and moves no entry by more than one: the image stays visually what it
    was. *)
Theorem X5_encode_changes_at_most_one (canvas canvas' : HTMLCanvasElement)
  (data : SteganographyData) (blob : Blob) :
  bytes (imageData canvas) = true ->
  encodeMessage canvas data = (canvas', Resolved blob) ->
  bytes (imageData canvas') = true /\
  forall j p p',
    imageData canvas !! j = Some p -> imageData canvas' !! j = Some p' ->
    p' = p \/ p' = p + 1 \/ p = p' + 1.
Proof.
  intros Hbytes H. apply encodeMessage_resolved_inv in H as (_ & _ & _ & -> & _).
  cbn [imageData putImageData].
  set (bits := payload_bits data ++ delimiter).
  assert (Hold : forall j p, imageData canvas !! j = Some p -> p < 256).
  { intros j p Hj. unfold bytes in Hbytes. rewrite forallb_forall in Hbytes.
    apply N.ltb_lt, Hbytes, list_elem_of_In. by eapply list_elem_of_lookup_2. }
  assert (Hnew : forall j p p',
             imageData canvas !! j = Some p ->
             encode_loop bits 0 (imageData canvas) !! j = Some p' ->
             p' < 256 /\ (p' = p \/ p' = p + 1 \/ p = p' + 1)).
  { intros j p p' Hp Hp'.
    destruct (encode_loop_lookup bits (imageData canvas) j)
      as [(i & b & _ & _ & Hw)|[_ Hw]]; rewrite Hw, Hp in Hp'.
    - cbn in Hp'. injection Hp' as <-. apply store_byte. by eapply Hold.
    - injection Hp' as <-. split; [by eapply Hold | by left]. }
  split.
  - unfold bytes. apply forallb_forall. intros p' Hin.
    apply list_elem_of_In, list_elem_of_lookup in Hin as [j Hj].
    pose proof (lookup_lt_Some _ _ _ Hj) as Hlt. rewrite encode_loop_length in Hlt.
    destruct (lookup_lt_is_Some_2 _ _ Hlt) as [p Hp].
    apply N.ltb_lt. by apply (Hnew j p p').
  - intros j p p' Hp Hp'. by apply (Hnew j p p').
Qed.

Lemma X5_encode_changes_at_most_one_witness :
  bytes (imageData encoded_demo) = true.
Proof.
  apply (X5_encode_changes_at_most_one (white 992) encoded_demo demo_data
           (imageData encoded_demo)); vm_compute; reflexivity.
Defined.

End EmbeddingProperties.

(** ** Capacity and failures of [encodeMessage] *)
Section EncodeFailures.
Import Json Steganography Examples.

Lemma length_quote (s : JSString) : (2 <= length (quote s))%nat.
Proof. unfold quote. cbn [length]. rewrite length_app. cbn [length]. lia. Qed.

(** No payload serializes to fewer characters than the empty one. *)
Lemma length_stringify_data (data : SteganographyData) :
  (length shortest_text <= length (stringify (data_value data)))%nat.
Proof.
  change (length shortest_text) with 33%nat.
  cbn [data_value stringify List.map join_comma fst snd].
  pose proof (length_quote (message data)) as Hm.
  assert (H1 : length (quote (js "message")) = 9%nat) by reflexivity.
  assert (H2 : length (quote (js "clickSequence")) = 15%nat) by reflexivity.
  repeat (rewrite ?length_app; cbn [length]).
  rewrite H1, H2. lia.
Qed.

(** X6.  No payload fits an image of fewer than 280 pixels: the shortest
    serialized payload takes 33 characters, 264 bits, and the terminator
    16 more, so [encodeMessage] rejects every payload there and leaves the
    canvas as it was. *)
Theorem X6_minimum_carrier (canvas : HTMLCanvasElement) (data : SteganographyData) :
  context2d canvas = true ->
  (length (imageData canvas) < 4 * 280)%nat ->
  encodeMessage canvas data = (canvas, Rejected "Message too long for this image").
Proof.
  intros Hctx Hsmall. apply encodeMessage_rejected; [exact Hctx|].
  rewrite length_app. change (length delimiter) with 16%nat.
  pose proof (length_stringToBinary_ge (stringify (data_value data))) as Hbits.
  pose proof (length_stringify_data data) as Htext.
  change (length shortest_text) with 33%nat in Htext.
  unfold payload_bits. lia.
Qed.

Lemma X6_minimum_carrier_witness :
  encodeMessage (white 279) demo_data =
    (white 279, Rejected "Message too long for this image").
Proof.
  apply (X6_minimum_carrier (white 279) demo_data); [reflexivity|].
  vm_compute. lia.
Defined.

(** X7.  When the browser delivers no blob, the promise is rejected only
    after the bits have been written: the canvas already carries the
    bit-string and its terminator in the red LSBs of its first pixels. *)
Theorem X7_rejected_after_write (canvas : HTMLCanvasElement) (data : SteganographyData) :
  context2d canvas = true ->
  blobAvailable canvas = false ->
  (length (payload_bits data ++ delimiter) * 4 <= length (imageData canvas))%nat ->
  exists canvas',
    encodeMessage canvas data = (canvas', Rejected "Failed to create blob") /\
    lsb_stream (imageData canvas') =
      payload_bits data ++ delimiter ++
      drop (length (payload_bits data ++ delimiter)) (lsb_stream (imageData canvas)).
Proof.
  intros Hctx Hblob Hcap. eexists. split.
  - unfold encodeMessage. rewrite Hctx. cbn [negb]. fold (payload_bits data).
    destruct (Nat.ltb_spec (length (imageData canvas))
                (length (payload_bits data ++ delimiter) * 4)) as [|_]; [lia|].
    cbn [putImageData blobAvailable]. rewrite Hblob. reflexivity.
  - cbn [imageData putImageData]. rewrite lsb_stream_encoded by exact Hcap.
    by rewrite <- app_assoc.
Qed.

Lemma X7_rejected_after_write_witness :
  exists canvas',
    encodeMessage {| context2d := true; imageData := imageData (white 992);
                     blobAvailable := false |} demo_data
    = (canvas', Rejected "Failed to create blob").
Proof.
  destruct (X7_rejected_after_write
              {| context2d := true; imageData := imageData (white 992);
                 blobAvailable := false |} demo_data eq_refl eq_refl)
    as (canvas' & H & _).
  - vm_compute. lia.
  - exists canvas'. exact H.
Defined.

End EncodeFailures.

(** ** What [decodeMessage] looks at *)
Section DecodeProperties.
Import Json Steganography Examples.

Lemma lsb_stream_ext (pixels1 pixels2 : list N) :
  length pixels1 = length pixels2 ->
  (forall i, (i * 4 < length pixels1)%nat ->
             N.testbit (read pixels1 (i * 4)) 0 = N.testbit (read pixels2 (i * 4)) 0) ->
  lsb_stream pixels1 = lsb_stream pixels2.
Proof.
  intros Hlen Hbits. unfold lsb_stream. rewrite <- Hlen.
  apply map_ext_in. intros i Hi. apply in_seq in Hi. unfold red_lsb. apply Hbits.
  unfold iterations in Hi.
  pose proof (Nat.Div0.mul_div_le (length pixels1 + 3) 4). lia.
Qed.

(** X8.  [decodeMessage] reads nothing but the least significant bit of
    the red channels: two images of the same size that agree on those bits
    decode alike, whatever their other bits and channels hold. *)
Theorem X8_decode_reads_red_lsbs_only (canvas1 canvas2 : HTMLCanvasElement) :
  context2d canvas1 = context2d canvas2 ->
  length (imageData canvas1) = length (imageData canvas2) ->
  (forall i, (i * 4 < length (imageData canvas1))%nat ->
     N.testbit (read (imageData canvas1) (i * 4)) 0
     = N.testbit (read (imageData canvas2) (i * 4)) 0) ->
  decodeMessage canvas1 = decodeMessage canvas2.
Proof.
  intros Hctx Hlen Hbits. destruct (context2d canvas2) eqn:Hctx2.
  - rewrite !decodeMessage_scan by assumption.
    by rewrite (lsb_stream_ext _ _ Hlen Hbits).
  - unfold decodeMessage, decodeMessage_try. by rewrite Hctx, Hctx2.
Qed.

Lemma X8_decode_reads_red_lsbs_only_witness :
  decodeMessage (canvas_of (pixels_of_bits (stringToBinary message_only_text ++ delimiter)))
  = decodeMessage
      (canvas_of (concat (List.map (fun b => [N.b2n b + 200; 17; 99; 3])
                            (stringToBinary message_only_text ++ delimiter)))).
Proof.
  apply X8_decode_reads_red_lsbs_only; [reflexivity | vm_compute; reflexivity |].
  intros i Hi.
  assert (Hall : forallb (fun i =>
            Bool.eqb
              (N.testbit (read (imageData (canvas_of (pixels_of_bits
                 (stringToBinary message_only_text ++ delimiter)))) (i * 4)) 0)
              (N.testbit (read (imageData (canvas_of (concat (List.map
                 (fun b => [N.b2n b + 200; 17; 99; 3])
                 (stringToBinary message_only_text ++ delimiter))))) (i * 4)) 0))
            (seq 0 144) = true) by (vm_compute; reflexivity).
  rewrite forallb_forall in Hall. apply Bool.eqb_prop, Hall, in_seq.
  assert (Hl : length (imageData (canvas_of (pixels_of_bits
                 (stringToBinary message_only_text ++ delimiter)))) = 576%nat)
    by (vm_compute; reflexivity).
  rewrite Hl in Hi. lia.
Defined.

(** X9.  Nothing to decode: when the terminator is met after fewer than
    eight bits, in particular at the very start of the image, the result
    is [null]; so it is for an image without pixels. *)
Theorem X9_decode_nothing (canvas : HTMLCanvasElement) (bits rest : list bool) :
  lsb_stream (imageData canvas) = bits ++ delimiter ++ rest ->
  (length bits < 8)%nat ->
  decodeMessage canvas = None /\
  decodeMessage (putImageData canvas []) = None.
Proof.
  intros Hstream Hshort.
  assert (Hfree : delimiter_free bits = true).
  { do 8 (destruct bits as [|? bits]; [vm_compute; reflexivity|]).
    cbn [length] in Hshort. lia. }
  assert (Hempty : forall c, imageData c = [] -> decodeMessage c = None).
  { intros c Hc. unfold decodeMessage, decodeMessage_try. rewrite Hc.
    by destruct (context2d c). }
  split; [|by apply Hempty].
  destruct (context2d canvas) eqn:Hctx.
  - rewrite decodeMessage_scan, Hstream, scan_delimiter by assumption.
    unfold decoded, binaryToString, match_8.
    by do 8 (destruct bits as [|? bits]; [reflexivity|]); cbn [length] in Hshort; lia.
  - unfold decodeMessage, decodeMessage_try. by rewrite Hctx.
Qed.

Lemma X9_decode_nothing_witness :
  decodeMessage (canvas_of (pixels_of_bits ([false; true; true] ++ delimiter))) = None.
Proof.
  apply (X9_decode_nothing _ [false; true; true] []); [vm_compute; reflexivity|].
  cbn. lia.
Defined.

(** X10.  The scan stops at the first terminator: what the image holds
    after it has no influence on the result. *)
Theorem X10_decode_stops_at_terminator (canvas1 canvas2 : HTMLCanvasElement)
  (bits rest1 rest2 : list bool) :
  context2d canvas1 = context2d canvas2 ->
  delimiter_free bits = true ->
  lsb_stream (imageData canvas1) = bits ++ delimiter ++ rest1 ->
  lsb_stream (imageData canvas2) = bits ++ delimiter ++ rest2 ->
  decodeMessage canvas1 = decodeMessage canvas2.
Proof.
  intros Hctx Hfree H1 H2. destruct (context2d canvas2) eqn:Hctx2.
  - rewrite !decodeMessage_scan by assumption.
    by rewrite H1, H2, !scan_delimiter.
  - unfold decodeMessage, decodeMessage_try. by rewrite Hctx, Hctx2.
Qed.

Lemma X10_decode_stops_at_terminator_witness :
  decodeMessage message_only =
  decodeMessage (canvas_of (pixels_of_bits
                   (stringToBinary message_only_text ++ delimiter ++ [true; true; false]))).
Proof.
  apply (X10_decode_stops_at_terminator _ _ (stringToBinary message_only_text)
           [] [true; true; false]); vm_compute; reflexivity.
Defined.

End DecodeProperties.

(** ** ASCII payloads *)
Section AsciiPayloads.
Import Json Steganography Examples.

Lemma ascii_app (s t : JSString) : ascii (s ++ t) = ascii s && ascii t.
Proof. apply forallb_app. Qed.

Lemma ascii_latin1 (s : JSString) : ascii s = true -> latin1 s = true.
Proof.
  unfold ascii, latin1. rewrite !forallb_forall. intros H c Hc.
  specialize (H c Hc). apply N.ltb_lt in H. apply N.ltb_lt. lia.
Qed.

Lemma ascii_hex_digit (d : N) : d < 16 -> hex_digit d < 128.
Proof. intros Hd. unfold hex_digit. destruct (d <? 10); lia. Qed.

Lemma ascii_unicode_escape (c : N) : ascii (unicode_escape c) = true.
Proof.
  unfold unicode_escape, ascii. cbn [forallb].
  rewrite !andb_true_iff, !N.ltb_lt.
  repeat split; try lia; apply ascii_hex_digit, N.mod_lt; discriminate.
Qed.

Lemma ascii_quote_unit (c : N) : c < 128 -> ascii (quote_unit c) = true.
Proof.
  intros Hc. unfold quote_unit.
  repeat match goal with
         | |- context [if ?a =? ?k then _ else _] => destruct (a =? k); [reflexivity|]
         end.
  destruct (c <? 32); [apply ascii_unicode_escape|].
  unfold ascii. cbn [forallb]. rewrite andb_true_r. by apply N.ltb_lt.
Qed.

Lemma ascii_quote_units (s : JSString) : ascii s = true -> ascii (quote_units s) = true.
Proof.
  induction s as [|c s IH]; intros Hs; [reflexivity|].
  cbn [ascii forallb] in Hs. apply andb_true_iff in Hs as [Hc Hs].
  apply N.ltb_lt in Hc. specialize (IH Hs). cbn [quote_units].
  assert (Hhigh : is_high_surrogate c = false).
  { unfold is_high_surrogate. apply andb_false_iff. left. apply N.leb_gt. lia. }
  assert (Hlow : is_low_surrogate c = false).
  { unfold is_low_surrogate. apply andb_false_iff. left. apply N.leb_gt. lia. }
  rewrite Hhigh, Hlow, ascii_app, IH, andb_true_r. by apply ascii_quote_unit.
Qed.

Lemma ascii_quote (s : JSString) : ascii s = true -> ascii (quote s) = true.
Proof.
  intros Hs. unfold quote. change (34 :: quote_units s ++ [34])
    with ([34] ++ quote_units s ++ [34]).
  by rewrite !ascii_app, ascii_quote_units.
Qed.

Lemma ascii_number (n : number) : wf_number n = true -> ascii n = true.
Proof.
  unfold wf_number, ascii. rewrite andb_true_iff, !forallb_forall. intros [H _] c Hc.
  specialize (H c Hc). apply number_char_cases in H. apply N.ltb_lt. lia.
Qed.

Lemma ascii_point (p : ClickPoint number) :
  wf_point p = true -> ascii (stringify (point_value p)) = true.
Proof.
  unfold wf_point. rewrite !andb_true_iff. intros [[Hx Hy] Ho].
  cbn [point_value stringify List.map join_comma fst snd].
  change (quote (js "x")) with [34; 120; 34].
  change (quote (js "y")) with [34; 121; 34].
  change (quote (js "order")) with [34; 111; 114; 100; 101; 114; 34].
  cbn [app].
  repeat (rewrite ?ascii_app; cbn [ascii forallb]; fold (ascii (x p)); fold (ascii (y p));
          fold (ascii (order p))).
  by rewrite !ascii_number.
Qed.

Lemma ascii_join_comma (parts : list JSString) :
  forallb ascii parts = true -> ascii (join_comma parts) = true.
Proof.
  induction parts as [|t parts IH]; intros H; [reflexivity|].
  cbn [forallb] in H. apply andb_true_iff in H as [Ht Hparts].
  destruct parts as [|t' parts]; [exact Ht|].
  change (join_comma (t :: t' :: parts)) with (t ++ [44] ++ join_comma (t' :: parts)).
  by rewrite !ascii_app, Ht, IH.
Qed.

(** The serialized form of a payload, part by part. *)
Lemma stringify_data_text (data : SteganographyData) :
  stringify (data_value data) =
    [123] ++ quote (js "message") ++ [58] ++ quote (message data) ++ [44] ++
    quote (js "clickSequence") ++ [58] ++ [91] ++
    join_comma (List.map stringify (List.map point_value (clickSequence data))) ++
    [93] ++ [125].
Proof.
  cbn [data_value stringify List.map join_comma fst snd app].
  repeat (rewrite <- !app_assoc; cbn [app]). reflexivity.
Qed.

(** The serialized form of a payload with an ASCII message is ASCII. *)
Lemma ascii_stringify_data (data : SteganographyData) :
  wf_data data = true -> ascii (message data) = true ->
  ascii (stringify (data_value data)) = true.
Proof.
  unfold wf_data. rewrite andb_true_iff. intros [_ Hpoints] Hmsg.
  assert (Hseq : ascii (join_comma (List.map stringify
                   (List.map point_value (clickSequence data)))) = true).
  { apply ascii_join_comma. rewrite forallb_forall. intros t Ht.
    apply in_map_iff in Ht as (v & <- & Hv). apply in_map_iff in Hv as (p & <- & Hp).
    apply ascii_point. rewrite forallb_forall in Hpoints. by apply Hpoints. }
  assert (Hk1 : ascii (quote (js "message")) = true) by reflexivity.
  assert (Hk2 : ascii (quote (js "clickSequence")) = true) by reflexivity.
  rewrite stringify_data_text, !ascii_app, Hk1, Hk2, Hseq, ascii_quote by exact Hmsg.
  reflexivity.
Qed.

(** In the bit-string of an ASCII text every eighth bit, the first of each
    character, is 0. *)
Lemma ascii_first_bit (s : JSString) (i : nat) :
  ascii s = true -> (i < length s)%nat ->
  stringToBinary s !! (8 * i)%nat = Some false.
Proof.
  revert i. induction s as [|c s IH]; intros i Hs Hi; [cbn in Hi; lia|].
  cbn [ascii forallb] in Hs. apply andb_true_iff in Hs as [Hc Hs]. apply N.ltb_lt in Hc.
  assert (Hbyte : exists byte, padStart 8 (toString2 c) = false :: byte /\ length byte = 7%nat).
  { pose (P := fun c => match padStart 8 (toString2 c) with
                        | false :: byte => (length byte =? 7)%nat
                        | _ => false
                        end).
    assert (HP : P c = true).
    { apply (N_forall_below P 128); [vm_compute; reflexivity | exact Hc]. }
    unfold P in HP. destruct (padStart 8 (toString2 c)) as [|[|] byte]; try discriminate HP.
    exists byte. split; [reflexivity | by apply Nat.eqb_eq]. }
  destruct Hbyte as (byte & Hbyte & Hlen).
  unfold stringToBinary in *. cbn [List.map concat]. rewrite Hbyte.
  destruct i as [|i]; [reflexivity|].
  rewrite lookup_app_r by (cbn [length]; lia). cbn [length]. rewrite Hlen.
  replace (8 * S i - 8)%nat with (8 * i)%nat by lia.
  apply IH; [exact Hs | cbn [length] in Hi; lia].
Qed.

(** The bit-string of an ASCII text contains no terminator: fifteen 1s in
    a row would cover the first bit of a character. *)
Lemma ascii_delimiter_free (s : JSString) :
  ascii s = true -> delimiter_free (stringToBinary s) = true.
Proof.
  intros Hs. unfold delimiter_free. apply forallb_forall. intros k _.
  apply negb_true_iff, not_true_is_false. rewrite endsWith_true. intros [pre Hpre].
  pose proof (length_stringToBinary s (ascii_latin1 s Hs)) as Hlen.
  assert (Hk : (length pre + 16 <= length (stringToBinary s))%nat).
  { apply (f_equal length) in Hpre. rewrite length_take, length_app in Hpre.
    change (length delimiter) with 16%nat in Hpre. lia. }
  set (q := ((length pre + 7) / 8)%nat).
  assert (Hq : (length pre <= 8 * q < length pre + 8)%nat).
  { unfold q. pose proof (Nat.div_mod_eq (length pre + 7) 8).
    pose proof (Nat.mod_upper_bound (length pre + 7) 8). lia. }
  assert (Hbit : stringToBinary s !! (8 * q)%nat = Some false).
  { apply ascii_first_bit; [exact Hs | lia]. }
  assert (Hone : take k (stringToBinary s) !! (8 * q)%nat = Some true).
  { rewrite Hpre, lookup_app_r by lia.
    assert (Hd : forall j, (j < 15)%nat -> delimiter !! j = Some true).
    { intros j Hj. do 15 (destruct j as [|j]; [reflexivity|]). lia. }
    apply Hd. lia. }
  assert (Htake : take k (stringToBinary s) !! (8 * q)%nat = stringToBinary s !! (8 * q)%nat).
  { apply lookup_take_lt. apply lookup_lt_Some in Hone. rewrite length_take in Hone. lia. }
  congruence.
Qed.

(** A successful round trip, from the properties of the serialized text. *)
Lemma decode_encoded (canvas : HTMLCanvasElement) (data : SteganographyData) :
  wf_data data = true ->
  latin1 (stringify (data_value data)) = true ->
  delimiter_free (payload_bits data) = true ->
  context2d canvas = true ->
  (length (payload_bits data ++ delimiter) * 4 <= length (imageData canvas))%nat ->
  forall viewer,
    context2d viewer = true ->
    imageData viewer = encode_loop (payload_bits data ++ delimiter) 0 (imageData canvas) ->
    decodeMessage viewer = Some (data_value data).
Proof.
  intros Hwf Hlatin Hfree Hctx Hcap viewer Hv Hpixels.
  assert (Hne : stringify (data_value data) <> []).
  { intros Hnil. apply (f_equal length) in Hnil.
    cbn [data_value stringify length] in Hnil. discriminate Hnil. }
  assert (Hstream : lsb_stream (imageData viewer) =
            stringToBinary (stringify (data_value data)) ++ delimiter ++
            drop (length (payload_bits data ++ delimiter))
                 (lsb_stream (imageData canvas))).
  { rewrite Hpixels, lsb_stream_encoded by exact Hcap.
    unfold payload_bits. apply eq_sym, app_assoc. }
  rewrite (decodeMessage_embedded viewer _ _ Hv Hlatin Hne Hfree Hstream).
  rewrite parse_stringify; [reflexivity|]. apply wf_data_value, Hwf.
Qed.

(** X11.  A payload with an ASCII message always survives: in an image
    with at least eight pixels per character of the serialized payload
    and sixteen more, [encodeMessage] succeeds and [decodeMessage] returns
    the payload, from the canvas and from any canvas showing the produced
    image. *)
Theorem X11_ascii_round_trip (canvas : HTMLCanvasElement) (data : SteganographyData)
  (pixelCount : nat) :
  wf_data data = true ->
  ascii (message data) = true ->
  context2d canvas = true ->
  blobAvailable canvas = true ->
  length (imageData canvas) = (4 * pixelCount)%nat ->
  (8 * length (stringify (data_value data)) + 16 <= pixelCount)%nat ->
  exists canvas' blob,
    encodeMessage canvas data = (canvas', Resolved blob) /\
    decodeMessage canvas' = Some (data_value data) /\
    forall viewer, context2d viewer = true -> imageData viewer = blob ->
                   decodeMessage viewer = Some (data_value data).
Proof.
  intros Hwf Hmsg Hctx Hblob Hlen Hcap.
  pose proof (ascii_stringify_data data Hwf Hmsg) as Hascii.
  pose proof (ascii_latin1 _ Hascii) as Hlatin.
  pose proof (ascii_delimiter_free _ Hascii) as Hfree.
  assert (Hbits : (length (payload_bits data ++ delimiter) * 4
                   <= length (imageData canvas))%nat).
  { rewrite length_app, Hlen. change (length delimiter) with 16%nat.
    unfold payload_bits. rewrite length_stringToBinary by exact Hlatin. lia. }
  eexists _, _. split; [apply encodeMessage_resolved; assumption|].
  pose proof (decode_encoded canvas data Hwf Hlatin Hfree Hctx Hbits) as Hdec.
  split; [apply Hdec; [exact Hctx | reflexivity] | exact Hdec].
Qed.

Lemma X11_ascii_round_trip_witness :
  exists canvas' blob,
    encodeMessage (white 992) demo_data = (canvas', Resolved blob) /\
    decodeMessage canvas' = Some (data_value demo_data) /\
    forall viewer, context2d viewer = true -> imageData viewer = blob ->
                   decodeMessage viewer = Some (data_value demo_data).
Proof.
  apply (X11_ascii_round_trip (white 992) demo_data 992);
    vm_compute; (reflexivity || lia).
Defined.

End AsciiPayloads.

(** ** Geometry *)
Section GeometryProperties.
Import Steganography.
Local Open Scope R_scope.



Lemma distance_nonneg (a b c d : R) : 0 <= distance a b c d.
Proof. unfold distance. apply sqrt_pos. Qed.

Lemma distance_sym (a b c d : R) : distance a b c d = distance c d a b.
Proof. unfold distance, pow2. f_equal. ring. Qed.

Lemma distance_self (a b : R) : distance a b a b = 0.
Proof.
  unfold distance, pow2. replace ((a - a) ^ 2 + (b - b) ^ 2) with 0 by ring.
  apply sqrt_0.
Qed.

(** X13.  [isClickNearPoint] does not depend on which point is the click
    and which the target, accepts more as the tolerance grows, accepts a
    click on the target itself for every tolerance that is not negative,
    and accepts nothing when the tolerance is negative. *)
Theorem X13_isClickNearPoint_laws (clickX clickY targetX targetY tolerance : R) :
  isClickNearPoint clickX clickY targetX targetY tolerance
    = isClickNearPoint targetX targetY clickX clickY tolerance /\
  (forall wider, tolerance <= wider ->
     isClickNearPoint clickX clickY targetX targetY tolerance = true ->
     isClickNearPoint clickX clickY targetX targetY wider = true) /\
  (0 <= tolerance -> isClickNearPoint targetX targetY targetX targetY tolerance = true) /\
  (tolerance < 0 -> isClickNearPoint clickX clickY targetX targetY tolerance = false).
Proof.
  split; [|split; [|split]].
  - unfold isClickNearPoint. by rewrite distance_sym.
  - intros wider Hw. rewrite !isClickNearPoint_true. lra.
  - intros Htol. apply isClickNearPoint_true. rewrite distance_self. exact Htol.
  - intros Htol. apply isClickNearPoint_false.
    pose proof (distance_nonneg clickX clickY targetX targetY). lra.
Qed.

Lemma X13_isClickNearPoint_laws_witness :
  isClickNearPoint 7 9 7 9 0 = true /\ isClickNearPoint 7 9 7 9 (-1) = false.
Proof.
  split.
  - apply (X13_isClickNearPoint_laws 7 9 7 9 0). lra.
  - apply (X13_isClickNearPoint_laws 7 9 7 9 (-1)). lra.
Defined.

End GeometryProperties.

(** ** Sessions of the matcher, continued *)
Section SessionProperties.
Import Steganography ImageCanvas MatcherExamples.

Lemma near_target_self (p : props) (t : ClickPoint R) :
  near_target p (denormalizeClickPoint t (width p) (height p)) t = true.
Proof.
  unfold near_target. cbv zeta. apply isClickNearPoint_true.
  rewrite distance_self. lra.
Qed.

Lemma referenceClicks_lookup (p : props) (i : nat) (t : ClickPoint R) :
  clickSequence p !! i = Some t ->
  referenceClicks p !! i = Some (denormalizeClickPoint t (width p) (height p)).
Proof. intros H. unfold referenceClicks. by rewrite lookup_map, H. Qed.

Lemma length_referenceClicks (p : props) :
  length (referenceClicks p) = length (clickSequence p).
Proof. unfold referenceClicks. apply length_map. Qed.

(** The rest of the reference sequence, submitted from the step it
    belongs to, completes the session. *)
Lemma submitAll_rest (p : props) (k : nat) (st : state) :
  (currentStep st + S k = length (clickSequence p))%nat ->
  snd (submitAll p st (drop (currentStep st) (referenceClicks p))) = true /\
  currentStep (fst (submitAll p st (drop (currentStep st) (referenceClicks p))))
  = length (clickSequence p).
Proof.
  revert st. induction k as [|k IH]; intros st Hk.
  - destruct (lookup_lt_is_Some_2 (clickSequence p) (currentStep st)) as [t Ht]; [lia|].
    rewrite (drop_S _ _ _ (referenceClicks_lookup p _ t Ht)).
    destruct (denormalizeClickPoint t (width p) (height p)) as [x y] eqn:Hxy.
    cbn [submitAll].
    pose proof (near_target_self p t) as Hnear. rewrite Hxy in Hnear.
    rewrite (submitClick_near p st x y t Ht Hnear).
    destruct (Nat.leb_spec (length (clickSequence p)) (currentStep st + 1)); [|lia].
    cbn. split; [reflexivity | lia].
  - destruct (lookup_lt_is_Some_2 (clickSequence p) (currentStep st)) as [t Ht]; [lia|].
    rewrite (drop_S _ _ _ (referenceClicks_lookup p _ t Ht)).
    destruct (denormalizeClickPoint t (width p) (height p)) as [x y] eqn:Hxy.
    cbn [submitAll].
    pose proof (near_target_self p t) as Hnear. rewrite Hxy in Hnear.
    rewrite (submitClick_near p st x y t Ht Hnear).
    destruct (Nat.leb_spec (length (clickSequence p)) (currentStep st + 1)); [lia|].
    replace (S (currentStep st)) with (currentStep st + 1)%nat by lia.
    apply (IH {| currentStep := currentStep st + 1;
                 verificationAttempts := verificationAttempts st ++ _ |}).
    cbn [currentStep]. lia.
Qed.

(** X14.  Submitting the reference points themselves, in their order,
    is answered by Verified, for every reference sequence that is not
    empty and on every canvas. *)
Theorem X14_exact_sequence_verifies (p : props) :
  clickSequence p <> [] ->
  snd (submitAll p initial (referenceClicks p)) = true /\
  currentStep (fst (submitAll p initial (referenceClicks p))) = length (clickSequence p).
Proof.
  intros Hne.
  destruct (length (clickSequence p)) as [|k] eqn:Hlen.
  - destruct (clickSequence p); [done | discriminate Hlen].
  - pose proof (submitAll_rest p k initial) as H. cbn [currentStep initial drop] in H.
    rewrite Hlen in H. by apply H.
Qed.

Lemma X14_exact_sequence_verifies_witness :
  snd (submitAll far_apart initial (referenceClicks far_apart)) = true.
Proof. apply (X14_exact_sequence_verifies far_apart). discriminate. Defined.

Lemma submitClick_consistent (p : props) (st : state) (x y : R) :
  consistent_step p st -> consistent_step p (fst (submitClick p st x y)).
Proof.
  intros [Hle Hlog].
  destruct (Nat.le_gt_cases (length (clickSequence p)) (currentStep st)) as [Hge|Hlt].
  - by rewrite submitClick_done.
  - destruct (lookup_lt_is_Some_2 _ _ Hlt) as [t Ht].
    destruct (near_target p (x, y) t) eqn:Hnear.
    + rewrite (submitClick_near p st x y t Ht Hnear).
      unfold consistent_step. cbn [fst currentStep verificationAttempts].
      rewrite length_app. cbn [length]. lia.
    + rewrite (submitClick_far p st x y t Ht Hnear).
      unfold consistent_step. cbn [fst currentStep verificationAttempts initial length].
      lia.
Qed.

Lemma submitAll_consistent (p : props) (clicks : list (R * R)) (st : state) :
  consistent_step p st -> consistent_step p (fst (submitAll p st clicks)).
Proof.
  revert st. induction clicks as [|[x y] clicks IH]; intros st Hst; [exact Hst|].
  cbn [submitAll]. pose proof (submitClick_consistent p st x y Hst) as Hnext.
  destruct (submitClick p st x y) as [st' [[|]|]]; cbn [fst] in *; by (apply IH || idtac).
Qed.

(** X15.  Whatever is clicked, a session keeps its state consistent:
    [currentStep] never passes the length of the reference sequence, and
    the attempt log has exactly [currentStep] entries once the feedback
    callbacks have run. *)
Theorem X15_session_state_consistent (p : props) (clicks : list (R * R)) :
  (currentStep (fst (submitAll p initial clicks)) <= length (clickSequence p))%nat /\
  length (verificationAttempts (fst (submitAll p initial clicks)))
  = currentStep (fst (submitAll p initial clicks)).
Proof.
  apply (submitAll_consistent p clicks initial). split; [cbn; lia | reflexivity].
Qed.

(** X16.  A session cannot be Verified with fewer clicks than the
    reference sequence still requires. *)
Theorem X16_too_few_clicks (p : props) (st : state) (clicks : list (R * R)) :
  (currentStep st + length clicks < length (clickSequence p))%nat ->
  snd (submitAll p st clicks) = false.
Proof. apply submitAll_short. Qed.

Lemma X16_too_few_clicks_witness :
  snd (submitAll far_apart initial [(60, 40); (300, 200)]%R) = false.
Proof. apply (X16_too_few_clicks far_apart initial). cbn. lia. Defined.




End SessionProperties.

(** ** [EncodeMode]: the payload that is handed to the codec *)
Section EncodeModeProperties.
Import Steganography Examples TraceExamples EncodeMode.

Lemma numbered_nil : numbered [].
Proof. intros i point H. discriminate H. Qed.

Lemma numbered_snoc (points : list (ClickPoint R)) (point : ClickPoint R) :
  numbered points -> order point = INR (length points) -> numbered (points ++ [point]).
Proof.
  intros Hn Ho i q Hi. destruct (Nat.lt_ge_cases i (length points)) as [Hlt|Hge].
  - rewrite lookup_app_l in Hi by exact Hlt. by apply Hn.
  - rewrite lookup_app_r in Hi by exact Hge.
    destruct (i - length points)%nat as [|k] eqn:Hk; [|discriminate Hi].
    injection Hi as <-. rewrite Ho. f_equal. lia.
Qed.

Lemma handle_well_formed (st : state) (e : event) :
  well_formed st -> well_formed (handle st e).
Proof.
  intros [Hlen Hnum]. destruct e as [value|img|canvas x y| | |outcome| ]; cbn [handle].
  - split; assumption.
  - split; [cbn; lia | apply numbered_nil].
  - unfold handleCanvasClick. destruct (isSettingSequence st); cbn [negb]; [|by split].
    destruct canvas as [[width height]|]; [|by split].
    destruct (Nat.leb_spec 4 (length (clickSequence st))); [by split|].
    split; cbn [clickSequence].
    + rewrite length_app. cbn [length]. lia.
    + by apply numbered_snoc.
  - split; [cbn; lia | apply numbered_nil].
  - unfold finishSettingSequence. destruct (_ <? _)%nat; by split.
  - destruct outcome; by split.
  - split; [cbn; lia | apply numbered_nil].
Qed.

Lemma run_well_formed (events : list event) (st : state) :
  well_formed st -> well_formed (run st events).
Proof.
  revert st. induction events as [|e events IH]; intros st Hst; [exact Hst|].
  cbn [run fold_left]. apply IH, handle_well_formed, Hst.
Qed.

(** X18.  Whatever the user has done before, [handleEncode] calls
    [encodeMessage] only for the loaded image, a message that is not empty
    and a click sequence of three or four points numbered 0, 1, 2, ... in
    the order they were set. *)
Theorem X18_payload_shape (events : list event) (r : request) :
  handleEncode (run initial events) = Some r ->
  (3 <= length (data_clickSequence r) <= 4)%nat /\
  numbered (data_clickSequence r) /\
  data_message r <> [] /\
  image (run initial events) = Some (canvas r).
Proof.
  pose proof (run_well_formed events initial
                ltac:(split; [cbn; lia | apply numbered_nil])) as [Hlen Hnum].
  unfold handleEncode. destruct (image (run initial events)) as [img|]; [|discriminate].
  destruct (bool_decide (message (run initial events) = [])) eqn:Hmsg; [discriminate|].
  destruct (Nat.ltb_spec (length (clickSequence (run initial events))) 3);
    cbn [orb]; [discriminate|].
  destruct (context2d img); cbn [negb]; [|discriminate].
  intros [= <-]. cbn [data_clickSequence data_message canvas].
  apply bool_decide_eq_false in Hmsg. repeat split; (lia || assumption).
Qed.

Lemma X18_payload_shape_witness :
  exists r, handleEncode (run initial three_points) = Some r /\
            (3 <= length (data_clickSequence r) <= 4)%nat.
Proof.
  eexists. split; [reflexivity|].
  eapply (X18_payload_shape three_points). reflexivity.
Defined.

(** X19.  The fifth click is refused: whatever events arrive, the click
    sequence of [EncodeMode] never holds more than four points, and its
    points are numbered from 0 in the order they were set. *)
Theorem X19_at_most_four_points (events : list event) :
  (length (clickSequence (run initial events)) <= 4)%nat /\
  numbered (clickSequence (run initial events)).
Proof.
  apply (run_well_formed events initial). split; [cbn; lia | apply numbered_nil].
Qed.

Lemma X19_at_most_four_points_witness :
  (length (clickSequence (run initial six_clicks)) <= 4)%nat.
Proof. apply (X19_at_most_four_points six_clicks). Defined.

Lemma unit_fraction (x w : R) : (0 < w -> 0 <= x <= w -> 0 <= x / w <= 1)%R.
Proof.
  intros Hw [H0 H1]. pose proof (Rinv_0_lt_compat w Hw) as Hinv. split.
  - apply Rmult_le_pos; lra.
  - apply (Rmult_le_reg_r w); [exact Hw|]. unfold Rdiv.
    rewrite Rmult_assoc, Rinv_l by lra. lra.
Qed.

Lemma handle_unit_square (st : state) (e : event) :
  on_canvas e ->
  Forall in_unit_square (clickSequence st) ->
  Forall in_unit_square (clickSequence (handle st e)).
Proof.
  intros He Hst. destruct e as [value|img|canvas x y| | |outcome| ]; cbn [handle];
    try assumption; try (by constructor).
  - unfold handleCanvasClick. destruct (isSettingSequence st); cbn [negb]; [|assumption].
    destruct canvas as [[width height]|]; [|assumption].
    destruct (Nat.leb_spec 4 (length (clickSequence st))); [assumption|].
    cbn [clickSequence]. apply Forall_app. split; [assumption|].
    constructor; [|constructor].
    cbn in He. destruct He as (Hw & Hh & Hx & Hy).
    split; cbn; by apply unit_fraction.
  - unfold finishSettingSequence. by destruct (_ <? _)%nat.
  - by destruct outcome.
Qed.

(** X20.  When every click lands within a canvas of positive size, the
    coordinates of all recorded points lie between 0 and 1. *)
Theorem X20_points_in_unit_square (events : list event) :
  Forall on_canvas events ->
  Forall in_unit_square (clickSequence (run initial events)).
Proof.
  assert (H : forall st, Forall on_canvas events ->
                         Forall in_unit_square (clickSequence st) ->
                         Forall in_unit_square (clickSequence (run st events))).
  { induction events as [|e events IH]; intros st Hev Hst; [exact Hst|].
    apply Forall_cons in Hev as [He Hev]. cbn [run fold_left].
    apply IH; [exact Hev | by apply handle_unit_square]. }
  intros Hev. apply H; [exact Hev | constructor].
Qed.

Lemma X20_points_in_unit_square_witness :
  Forall in_unit_square (clickSequence (run initial three_points)).
Proof.
  apply (X20_points_in_unit_square three_points).
  unfold three_points. repeat constructor; cbn; lra.
Defined.

End EncodeModeProperties.

(** ** From the pointer event to the recorded point *)
Section CanvasClickProperties.
Import Steganography CanvasClick TraceExamples.
Local Open Scope R_scope.



End CanvasClickProperties.

(** ** [DecodeMode]: from the image to the revealed message *)
Section DecodeModeProperties.
Import Json Steganography Examples TraceExamples DecodeMode DecodeSession.

Lemma truthy_clickSequence (data : SteganographyData) :
  truthy_property (Some (data_value data)) (js "clickSequence")
  = Some (JArray (List.map point_value (Steganography.clickSequence data))).
Proof. reflexivity. Qed.

Lemma truthy_message (data : SteganographyData) :
  message data <> [] ->
  truthy_property (Some (data_value data)) (js "message") = Some (JString (message data)).
Proof.
  intros Hne. unfold truthy_property. cbn [truthy data_value].
  change (get _ (js "message")) with (Some (JString (message data))).
  cbn [truthy]. by rewrite bool_decide_eq_false_2.
Qed.

(** X22.  An image produced by [encodeMessage] from a payload with an
    ASCII message and at least one click point arms the decoder when it is
    loaded: the reference sequence is the one of the payload, the attempt
    counter is 0 and verification can start; a successful verification
    then reveals exactly the embedded message. *)
Theorem X22_load_verify_reveal (st : state) (canvas : HTMLCanvasElement)
  (data : SteganographyData) (pixelCount : nat) :
  wf_data data = true ->
  ascii (message data) = true ->
  message data <> [] ->
  Steganography.clickSequence data <> [] ->
  context2d canvas = true ->
  blobAvailable canvas = true ->
  length (imageData canvas) = (4 * pixelCount)%nat ->
  (8 * length (stringify (data_value data)) + 16 <= pixelCount)%nat ->
  exists encoded blob,
    encodeMessage canvas data = (encoded, Resolved blob) /\
    let loaded := handleImageUpload st encoded in
    let revealed := handleVerificationComplete (startVerification loaded) true in
    clickSequence loaded
      = JArray (List.map point_value (Steganography.clickSequence data)) /\
    attempts loaded = 0%nat /\
    isVerifying (startVerification loaded) = true /\
    verificationSuccess revealed = true /\
    decodedMessage revealed = JString (message data).
Proof.
  intros Hwf Hascii Hmsg Hseq Hctx Hblob Hlen Hcap.
  pose proof (ascii_stringify_data data Hwf Hascii) as Htext.
  pose proof (ascii_latin1 _ Htext) as Hlatin.
  pose proof (ascii_delimiter_free _ Htext) as Hfree.
  assert (Hbits : (length (payload_bits data ++ delimiter) * 4
                   <= length (imageData canvas))%nat).
  { rewrite length_app, Hlen. change (length delimiter) with 16%nat.
    unfold payload_bits. rewrite length_stringToBinary by exact Hlatin. lia. }
  eexists _, _. split; [apply encodeMessage_resolved; assumption|].
  set (encoded := putImageData canvas _).
  assert (Hdec : decodeMessage encoded = Some (data_value data)).
  { apply (decode_encoded canvas data Hwf Hlatin Hfree Hctx Hbits); [exact Hctx | reflexivity]. }
  assert (Hectx : context2d encoded = true) by exact Hctx.
  cbv zeta. unfold handleImageUpload. rewrite Hectx, Hdec, truthy_clickSequence.
  cbn [negb clickSequence attempts image isVerifying verificationSuccess decodedMessage].
  unfold startVerification. cbn [clickSequence has_length].
  assert (Hl : bool_decide (length (List.map point_value (Steganography.clickSequence data))
                            = 0%nat) = false).
  { apply bool_decide_eq_false_2. rewrite length_map.
    destruct (Steganography.clickSequence data); [done | discriminate]. }
  rewrite Hl. cbn [negb image clickSequence isVerifying verificationSuccess decodedMessage
                     attempts].
  unfold handleVerificationComplete, revealMessage.
  cbn [image clickSequence isVerifying verificationSuccess decodedMessage attempts].
  rewrite Hectx, Hdec, truthy_message by exact Hmsg.
  cbn [negb image clickSequence isVerifying verificationSuccess decodedMessage attempts].
  repeat split.
Qed.

Lemma X22_load_verify_reveal_witness :
  exists encoded blob,
    encodeMessage (white 992) demo_data = (encoded, Resolved blob) /\
    decodedMessage
      (handleVerificationComplete
         (startVerification (handleImageUpload initial encoded)) true)
    = JString (js "hi").
Proof.
  assert (Hwf : wf_data demo_data = true) by (vm_compute; reflexivity).
  assert (Hascii : ascii (message demo_data) = true) by (vm_compute; reflexivity).
  assert (Hmsg : message demo_data <> []) by discriminate.
  assert (Hseq : Steganography.clickSequence demo_data <> []) by discriminate.
  assert (Hlen : length (imageData (white 992)) = (4 * 992)%nat)
    by (vm_compute; reflexivity).
  assert (Hcap : (8 * length (stringify (data_value demo_data)) + 16 <= 992)%nat)
    by (vm_compute; lia).
  destruct (X22_load_verify_reveal initial (white 992) demo_data 992
              Hwf Hascii Hmsg Hseq eq_refl eq_refl Hlen Hcap)
    as (encoded & blob & Henc & H).
  cbv zeta in H. destruct H as (_ & _ & _ & _ & Hrevealed).
  exists encoded, blob. split; [exact Henc | exact Hrevealed].
Defined.

(** X23.  An image that decodes to nothing, or to a value without a
    [clickSequence] property, is treated as carrying no hidden message:
    loading it leaves the reference sequence empty, so verification cannot
    be started and nothing can be revealed. *)
Theorem X23_load_without_sequence (st : state) (img : HTMLCanvasElement) :
  (decodeMessage img = None \/
   exists v, decodeMessage img = Some v /\ get v (js "clickSequence") = None) ->
  let loaded := handleImageUpload st img in
  image loaded = Some img /\
  clickSequence loaded = JArray [] /\
  decodedMessage loaded = JString [] /\
  startVerification loaded = loaded.
Proof.
  intros Hdec. cbv zeta.
  assert (Hnone : truthy_property (decodeMessage img) (js "clickSequence") = None).
  { destruct Hdec as [->|(v & -> & Hget)]; [reflexivity|].
    unfold truthy_property. rewrite Hget. by destruct (truthy v). }
  unfold handleImageUpload. rewrite Hnone.
  destruct (context2d img); cbn; repeat split.
Qed.

Lemma X23_load_without_sequence_witness :
  startVerification (handleImageUpload initial message_only)
  = handleImageUpload initial message_only.
Proof.
  apply (X23_load_without_sequence initial message_only).
  right. eexists. split; vm_compute; reflexivity.
Defined.







Lemma handle_concealed (st : state) (e : event) :
  e <> Complete true ->
  verificationSuccess st = false /\ decodedMessage st = JString [] ->
  verificationSuccess (handle st e) = false /\ decodedMessage (handle st e) = JString [].
Proof.
  intros He [Hs Hm]. destruct e as [img| |success| | ]; cbn [handle].
  - unfold handleImageUpload. destruct (context2d img); cbn [negb]; [|by split].
    by destruct (truthy_property _ _).
  - unfold startVerification. by destruct (has_length _).
  - destruct success; [done|]. unfold handleVerificationComplete.
    by destruct (Nat.leb_spec 2 (attempts st)).
  - by split.
  - by split.
Qed.

(** X26.  Nothing is revealed without the matcher's consent: as long as
    no verification has completed successfully, [verificationSuccess] is
    false and the message held for display is empty, whatever images are
    loaded and however often verification is started, failed, cancelled or
    reset. *)
Theorem X26_no_reveal_without_success (events : list event) :
  Forall (fun e => e <> Complete true) events ->
  verificationSuccess (run initial events) = false /\
  decodedMessage (run initial events) = JString [].
Proof.
  assert (H : forall st,
             Forall (fun e => e <> Complete true) events ->
             verificationSuccess st = false /\ decodedMessage st = JString [] ->
             verificationSuccess (run st events) = false /\
             decodedMessage (run st events) = JString []).
  { induction events as [|e events IH]; intros st Hev Hst; [exact Hst|].
    apply Forall_cons in Hev as [He Hev]. cbn [run fold_left].
    apply IH; [exact Hev | by apply handle_concealed]. }
  intros Hev. apply H; [exact Hev | by split].
Qed.

Lemma X26_no_reveal_without_success_witness :
  decodedMessage (run initial four_failures) = JString [].
Proof.
  apply (X26_no_reveal_without_success four_failures).
  unfold four_failures. repeat constructor; discriminate.
Defined.

End DecodeModeProperties.
